(** * The frame-loop performance harness of [game.ts]

    A shallow embedding of [src/code/src/game.ts]: the per-frame callback
    [renderLoop], the sample buffer [performanceData], the two-group
    statistics [calculateStatistics] and the export handler [onClick],
    together with the fragments of the ECMAScript runtime they rely on
    (binary64 numbers, conversion of numbers to text, a pending promise).

    A JavaScript number is an IEEE-754 binary64 value: it is modelled by
    Rocq's primitive [float], whose operations round to nearest-even and
    whose NaN carries no payload, as in ECMAScript.  Text is a [string] of
    bytes (UTF-8, the encoding of the files of the exported bundle).

    The repository holds a second, earlier copy of the page, which exports
    the table alone and has no guard; the embedding follows [game.ts].

    The file has the definitions first (runtime, data model, handlers,
    event loop, a reader of the exported table, the export of the earlier
    copy), then the theorems, in two parts. *)

From Stdlib Require Import List Bool ZArith Lia String Ascii Floats.
Import ListNotations.

(* ===================================================================== *)
(** * Part I: definitions *)
(* ===================================================================== *)

(** ** The ECMAScript runtime *)

Module JS.

Definition number := float.
Bind Scope float_scope with number.

(** [ToBoolean] on a number: [+0], [-0] and [NaN] are falsy. *)
Definition ToBoolean (x : number) : bool :=
  negb (is_zero x || is_nan x).

(** The number denoting an integer (correctly rounded; exact below 2^53). *)
Definition of_Z (z : Z) : number :=
  SF2Prim (binary_normalize prec emax z 0 false).

(** The [length] of an array, as a number. *)
Definition length_number {A} (l : list A) : number :=
  of_Z (Z.of_nat (List.length l)).

(** [Array.prototype.reduce(callback, initialValue)]: a left fold. *)
Definition reduce {A B} (l : list A) (callback : B -> A -> B) (initialValue : B) : B :=
  fold_left callback l initialValue.

(** [Math.pow(b, 2)]: the square of [b], one correctly rounded product
    (what engines compute for an exponent of 2; NaN, zeros and infinities
    behave as in the product). *)
Definition Math_pow_2 (b : number) : number := (b * b)%float.

Definition Math_sqrt (x : number) : number := sqrt x.

(** *** Numbers to text *)

Local Open Scope string_scope.
Local Open Scope Z_scope.

Definition LF : string := String "010" "".

(** The UTF-8 bytes of U+00B1, the plus-minus sign. *)
Definition plus_minus : string := String "194" (String "177" "").

Definition digit (d : Z) : ascii := ascii_of_nat (48 + Z.to_nat d).

(** The digits of [n] put before [acc], the last digit first. *)
Fixpoint digits_before (fuel : nat) (n : Z) (acc : string) : string :=
  match fuel with
  | O => acc
  | S fuel =>
      let acc := String (digit (n mod 10)) acc in
      if n <? 10 then acc else digits_before fuel (n / 10) acc
  end.

(** The decimal digits of a natural integer, without leading zeros. *)
Definition decimal (n : Z) : string :=
  digits_before (S (Z.to_nat (Z.log2 n))) n "".

(** The first [n] characters of a text, and the others. *)
Fixpoint take (n : nat) (s : string) : string :=
  match n, s with
  | S n, String c s => String c (take n s)
  | _, _ => ""
  end.

Fixpoint drop (n : nat) (s : string) : string :=
  match n, s with
  | S n, String _ s => drop n s
  | _, _ => s
  end.

Fixpoint zeros (n : nat) : string :=
  match n with O => "" | S n => String "0" (zeros n) end.

(** The number of decimal digits of a positive integer. *)
Definition ndigits (n : Z) : Z := Z.of_nat (String.length (decimal n)).

(** The binary64 value nearest to [s * 10^q], for a natural [s]: the
    integer [s * 10^q], or the quotient of [s] by [10^(-q)], rounded once. *)
Definition SF_of_decimal (s q : Z) : spec_float :=
  if s <=? 0 then S754_zero false
  else if 0 <=? q then binary_normalize prec emax (s * 10 ^ q) 0 false
  else SFdiv prec emax (S754_finite false (Z.to_pos s) 0)
                       (S754_finite false (Z.to_pos (10 ^ (- q))) 0).

(** [s * 10^q] is read as the positive number [m * 2^e]. *)
Definition reads_as (m : positive) (e : Z) (s q : Z) : bool :=
  match SF_of_decimal s q with
  | S754_finite false m' e' => Pos.eqb m' m && Z.eqb e' e
  | _ => false
  end.

(** [m * 2^e] as a fraction. *)
Definition fraction (m : positive) (e : Z) : Z * Z :=
  if 0 <=? e then (Zpos m * 2 ^ e, 1) else (Zpos m, 2 ^ (- e)).

(** The integer [n] with [10^(n-1) <= num/den < 10^n]. *)
Definition magnitude10 (num den : Z) : Z :=
  if den <=? num then ndigits (num / den)
  else 1 - ndigits ((den - 1) / num).

(** [num/den * 10^(k-n)] cut to an integer, with the remainder and the
    divisor, which tell how far the next integer is. *)
Definition scaled (num den n k : Z) : Z * Z * Z :=
  let '(a, b) := if n <=? k then (num * 10 ^ (k - n), den)
                 else (num, den * 10 ^ (n - k)) in
  (a / b, a mod b, b).

(** The conditions of Number::toString, step 5, on [s], [n] and [k]:
    [s] has [k] digits and [s * 10^(n-k)] is read as [m * 2^e]. *)
Definition fits (m : positive) (e k : Z) (sn : Z * Z) : bool :=
  let '(s, n) := sn in
  (ndigits s =? k) && reads_as m e s (n - k).

(** Number::toString, step 5, for a given number [k] of digits: of the two
    decimals of [k] digits around the value, one that fits; if both do, the
    nearer one, and the even one on a tie. *)
Definition candidate (m : positive) (e n0 k : Z) : option (Z * Z) :=
  let '(num, den) := fraction m e in
  let '(lo, r, b) := scaled num den n0 k in
  let below := (lo, n0) in
  let above := if lo + 1 <? 10 ^ k then (lo + 1, n0) else (10 ^ (k - 1), n0 + 1) in
  let prefer_below := match 2 * r ?= b with
                      | Lt => true | Gt => false | Eq => Z.even lo end in
  if fits m e k below && fits m e k above
  then Some (if prefer_below then below else above)
  else if fits m e k below then Some below
  else if fits m e k above then Some above
  else None.

(** The decimal expansion of [m * 2^e], digit for digit. *)
Definition exact_decimal (m : positive) (e : Z) : Z * Z :=
  let s := if 0 <=? e then Zpos m * 2 ^ e else Zpos m * 5 ^ (- e) in
  (s, ndigits s + Z.min e 0).

(** The least [k], from [k] upwards.  17 digits identify any binary64, so
    the search ends before the fuel does; past it stands the full
    expansion. *)
Fixpoint shortest_from (fuel : nat) (m : positive) (e n0 k : Z) : Z * Z :=
  match candidate m e n0 k, fuel with
  | Some sn, _ => sn
  | None, S fuel => shortest_from fuel m e n0 (k + 1)
  | None, O => exact_decimal m e
  end.

(** The [(s, n)] of Number::toString for the positive finite [m * 2^e]. *)
Definition shortest (m : positive) (e : Z) : Z * Z :=
  let '(num, den) := fraction m e in
  shortest_from 16 m e (magnitude10 num den) 1.

(** Number::toString, steps 6 to 10: the notation, chosen by [n]. *)
Definition notation (s n : Z) : string :=
  let ds := decimal s in
  let k := ndigits s in
  if (-5 <=? n) && (n <=? 21) then
    if k <=? n then ds ++ zeros (Z.to_nat (n - k))
    else if 0 <? n then
      take (Z.to_nat n) ds ++ "." ++ drop (Z.to_nat n) ds
    else "0." ++ zeros (Z.to_nat (- n)) ++ ds
  else
    let e := n - 1 in
    let exponent := (if e <? 0 then "-" else "+") ++ decimal (Z.abs e) in
    if k =? 1 then ds ++ "e" ++ exponent
    else take 1 ds ++ "." ++ drop 1 ds ++ "e" ++ exponent.

(** Number::toString(x, 10): what a template literal does to a number. *)
Definition Number_toString (x : number) : string :=
  match Prim2SF x with
  | S754_nan => "NaN"
  | S754_zero _ => "0"
  | S754_infinity sg => if sg then "-Infinity" else "Infinity"
  | S754_finite sg m e =>
      let '(s, n) := shortest m e in
      (if sg then "-" else "") ++ notation s n
  end.

(** What a template literal does to a boolean. *)
Definition Boolean_toString (b : bool) : string :=
  if b then "true" else "false".

(** [Number.prototype.toFixed(fractionDigits)]: the integer [n] with
    [n / 10^f] nearest to the value, the larger one on a tie. *)
Definition Number_toFixed (x : number) (f : nat) : string :=
  match Prim2SF x with
  | S754_finite sg m e =>
      let '(num, den) := fraction m e in
      if 10 ^ 21 * den <=? num then Number_toString x
      else
        let n := (2 * num * 10 ^ Z.of_nat f + den) / (2 * den) in
        let ds := decimal n in
        let ds := zeros (S f - String.length ds) ++ ds in
        let k := String.length ds in
        (if sg then "-" else "")
        ++ (if Nat.eqb f 0 then ds
            else take (k - f) ds ++ "." ++ drop (k - f) ds)
  | S754_zero _ =>
      if Nat.eqb f 0 then "0" else "0." ++ zeros f
  | _ => Number_toString x
  end.

End JS.

Import JS.

(** ** Data model *)

(** An element of [performanceData]: [{ms: number, mouseMoved: boolean}]. *)
Record sample := mkSample { ms : number; mouseMoved : bool }.

(** One group of the object returned by [calculateStatistics]. *)
Record groupStats := mkGroup { count : nat; mean : number; stdDev : number }.

Record statistics := mkStatistics {
  mouseMovedStats : groupStats;
  mouseNotMovedStats : groupStats;
  difference : number
}.

(** ** [calculateStatistics] *)

Definition mouseMovedTimes (data : list sample) : list number :=
  map ms (filter (fun d => mouseMoved d) data).

Definition mouseNotMovedTimes (data : list sample) : list number :=
  map ms (filter (fun d => negb (mouseMoved d)) data).

(** [times.reduce((a, b) => a + b, 0) / times.length] *)
Definition meanOf (times : list number) : number :=
  (reduce times (fun a b => a + b) 0 / length_number times)%float.

(** [Math.sqrt(times.reduce((a, b) => a + Math.pow(b - mean, 2), 0) / times.length)] *)
Definition stdDevOf (times : list number) (mean : number) : number :=
  Math_sqrt (reduce times (fun a b => a + Math_pow_2 (b - mean)) 0
             / length_number times)%float.

Definition calculateStatistics (data : list sample) : statistics :=
  let mouseMovedTimes := mouseMovedTimes data in
  let mouseNotMovedTimes := mouseNotMovedTimes data in
  let mouseMovedMean := meanOf mouseMovedTimes in
  let mouseNotMovedMean := meanOf mouseNotMovedTimes in
  let mouseMovedStdDev := stdDevOf mouseMovedTimes mouseMovedMean in
  let mouseNotMovedStdDev := stdDevOf mouseNotMovedTimes mouseNotMovedMean in
  {| mouseMovedStats :=
       {| count := List.length mouseMovedTimes;
          mean := mouseMovedMean;
          stdDev := mouseMovedStdDev |};
     mouseNotMovedStats :=
       {| count := List.length mouseNotMovedTimes;
          mean := mouseNotMovedMean;
          stdDev := mouseNotMovedStdDev |};
     difference := (mouseMovedMean - mouseNotMovedMean)%float |}.

(** ** The exported files *)

Section ExportedFiles.
Local Open Scope string_scope.

(** [`${row.ms},${row.mouseMoved}`] *)
Definition csvRow (row : sample) : string :=
  Number_toString (ms row) ++ "," ++ Boolean_toString (mouseMoved row).

Definition csvHeader : string := "DrawTime(ms),MouseMoved".

(** ["DrawTime(ms),MouseMoved\n" + performanceData.map(...).join("\n")] *)
Definition csvContent (performanceData : list sample) : string :=
  (csvHeader ++ LF) ++ String.concat LF (map csvRow performanceData).

(** [`${stats.mouseMovedStats.count}`]: the count is a number. *)
Definition count_toString (c : nat) : string :=
  Number_toString (of_Z (Z.of_nat c)).

Definition statsText (stats : statistics) : string :=
  "Performance Statistics Summary" ++ LF ++
  "--------------------------------" ++ LF ++
  "Performance impact of mouse movement: "
    ++ Number_toFixed (difference stats) 2 ++ "ms" ++ LF ++
  LF ++ "Mouse Moved Frames:" ++ LF ++
  "Count: " ++ count_toString (count (mouseMovedStats stats)) ++ LF ++
  "Mean: " ++ Number_toFixed (mean (mouseMovedStats stats)) 2 ++ "ms" ++ LF ++
  "Standard Deviation: " ++ plus_minus
    ++ Number_toFixed (stdDev (mouseMovedStats stats)) 2 ++
  LF ++ LF ++ "Static Frames:" ++ LF ++
  "Count: " ++ count_toString (count (mouseNotMovedStats stats)) ++ LF ++
  "Mean: " ++ Number_toFixed (mean (mouseNotMovedStats stats)) 2 ++ "ms" ++ LF ++
  "Standard Deviation: " ++ plus_minus
    ++ Number_toFixed (stdDev (mouseNotMovedStats stats)) 2.

(** The lines written to the console by [onClick], after the object. *)
Definition consoleLines (stats : statistics) : list string :=
  [ "Performance impact of mouse movement: "
      ++ Number_toFixed (difference stats) 2 ++ "ms";
    "Mouse moved frames: " ++ count_toString (count (mouseMovedStats stats))
      ++ " (mean: " ++ Number_toFixed (mean (mouseMovedStats stats)) 2
      ++ "ms " ++ plus_minus
      ++ Number_toFixed (stdDev (mouseMovedStats stats)) 2 ++ ")";
    "Static frames: " ++ count_toString (count (mouseNotMovedStats stats))
      ++ " (mean: " ++ Number_toFixed (mean (mouseNotMovedStats stats)) 2
      ++ "ms " ++ plus_minus
      ++ Number_toFixed (stdDev (mouseNotMovedStats stats)) 2 ++ ")" ].

(** A [JSZip] object: its files, name and content, in the order added. *)
Definition zip := list (string * string).

(** The bundle [onClick] builds from a buffer. *)
Definition bundle (performanceData : list sample) : zip :=
  [ ("performance_data.csv", csvContent performanceData);
    ("statistics.txt", statsText (calculateStatistics performanceData)) ].

End ExportedFiles.

(** ** The state of the page *)

(** The module-level variables that the handlers read and assign. *)
Inductive global :=
| g_lastTime
| g_mouseMovedThisFrame
| g_performanceData
| g_isProcessingClick.

(** Calls into the collaborators: the Rive runtime, the renderer, the
    clock, the console, JSZip and the document. *)
Inductive call :=
| renderer_clear
| stateMachine_advance (elapsedTimeSec : number)
| artboard_advance (elapsedTimeSec : number)
| renderer_save
| renderer_align (maxX maxY : N)  (* contain, center, {0, 0, maxX, maxY}, bounds *)
| performance_now (result : number)
| artboard_draw
| renderer_restore
| rive_resolveAnimationFrame
| requestAnimationFrame_renderLoop
| console_log_stats (stats : statistics)
| console_log (line : string)
| zip_generateAsync (files : zip)
| link_click (download : string) (content : zip).

(** What a handler does, in order: reads and assignments of the globals,
    and calls. *)
Inductive effect :=
| Get (g : global)
| Assign (g : global)
| Call (c : call).

Record world := mkWorld {
  (* the variables of game.ts *)
  lastTime : number;
  mouseMovedThisFrame : bool;
  performanceData : list sample;
  isProcessingClick : bool;
  (* the canvas element *)
  canvas_width : N;
  canvas_height : N;
  (* the bundles whose [generateAsync] promise is pending, oldest first *)
  generating : list zip;
  (* the files handed to the browser for download, oldest first *)
  downloaded : list (string * zip)
}.

(** The page after [main] has loaded the animation, sized the canvas and
    requested the first frame. *)
Definition initial (innerWidth innerHeight : N) : world :=
  {| lastTime := 0; mouseMovedThisFrame := false; performanceData := [];
     isProcessingClick := false;
     canvas_width := innerWidth; canvas_height := innerHeight;
     generating := []; downloaded := [] |}.

(** *** Handlers are state transformers that log their effects *)

Definition M (A : Type) : Type := world -> A * world * list effect.

Definition ret {A} (a : A) : M A := fun w => (a, w, []).

Definition bind {A B} (m : M A) (k : A -> M B) : M B :=
  fun w => let '(a, w1, l1) := m w in
           let '(b, w2, l2) := k a w1 in
           (b, w2, l1 ++ l2).

Declare Scope harness_scope.
Delimit Scope harness_scope with harness.
Notation "x <- m ;; k" := (bind m (fun x => k))
  (at level 61, m at next level, right associativity) : harness_scope.
Notation "m ;; k" := (bind m (fun _ => k))
  (at level 61, right associativity) : harness_scope.

Definition world_after {A} (r : A * world * list effect) : world := snd (fst r).
Definition effects {A} (r : A * world * list effect) : list effect := snd r.

Definition do_call (c : call) : M unit := fun w => (tt, w, [Call c]).

Definition get_lastTime : M number :=
  fun w => (lastTime w, w, [Get g_lastTime]).
Definition get_mouseMovedThisFrame : M bool :=
  fun w => (mouseMovedThisFrame w, w, [Get g_mouseMovedThisFrame]).
Definition get_performanceData : M (list sample) :=
  fun w => (performanceData w, w, [Get g_performanceData]).
Definition get_isProcessingClick : M bool :=
  fun w => (isProcessingClick w, w, [Get g_isProcessingClick]).

Definition with_lastTime (v : number) (w : world) : world :=
  {| lastTime := v; mouseMovedThisFrame := mouseMovedThisFrame w;
     performanceData := performanceData w;
     isProcessingClick := isProcessingClick w;
     canvas_width := canvas_width w; canvas_height := canvas_height w;
     generating := generating w; downloaded := downloaded w |}.

Definition with_mouseMovedThisFrame (v : bool) (w : world) : world :=
  {| lastTime := lastTime w; mouseMovedThisFrame := v;
     performanceData := performanceData w;
     isProcessingClick := isProcessingClick w;
     canvas_width := canvas_width w; canvas_height := canvas_height w;
     generating := generating w; downloaded := downloaded w |}.

Definition with_performanceData (v : list sample) (w : world) : world :=
  {| lastTime := lastTime w; mouseMovedThisFrame := mouseMovedThisFrame w;
     performanceData := v;
     isProcessingClick := isProcessingClick w;
     canvas_width := canvas_width w; canvas_height := canvas_height w;
     generating := generating w; downloaded := downloaded w |}.

Definition with_isProcessingClick (v : bool) (w : world) : world :=
  {| lastTime := lastTime w; mouseMovedThisFrame := mouseMovedThisFrame w;
     performanceData := performanceData w;
     isProcessingClick := v;
     canvas_width := canvas_width w; canvas_height := canvas_height w;
     generating := generating w; downloaded := downloaded w |}.

Definition with_canvas (width height : N) (w : world) : world :=
  {| lastTime := lastTime w; mouseMovedThisFrame := mouseMovedThisFrame w;
     performanceData := performanceData w;
     isProcessingClick := isProcessingClick w;
     canvas_width := width; canvas_height := height;
     generating := generating w; downloaded := downloaded w |}.

Definition with_generating (v : list zip) (w : world) : world :=
  {| lastTime := lastTime w; mouseMovedThisFrame := mouseMovedThisFrame w;
     performanceData := performanceData w;
     isProcessingClick := isProcessingClick w;
     canvas_width := canvas_width w; canvas_height := canvas_height w;
     generating := v; downloaded := downloaded w |}.

Definition with_downloaded (v : list (string * zip)) (w : world) : world :=
  {| lastTime := lastTime w; mouseMovedThisFrame := mouseMovedThisFrame w;
     performanceData := performanceData w;
     isProcessingClick := isProcessingClick w;
     canvas_width := canvas_width w; canvas_height := canvas_height w;
     generating := generating w; downloaded := v |}.

Definition set_lastTime (v : number) : M unit :=
  fun w => (tt, with_lastTime v w, [Assign g_lastTime]).
Definition set_mouseMovedThisFrame (v : bool) : M unit :=
  fun w => (tt, with_mouseMovedThisFrame v w, [Assign g_mouseMovedThisFrame]).
Definition set_performanceData (v : list sample) : M unit :=
  fun w => (tt, with_performanceData v w, [Assign g_performanceData]).
Definition set_isProcessingClick (v : bool) : M unit :=
  fun w => (tt, with_isProcessingClick v w, [Assign g_isProcessingClick]).

(** [performanceData.push(x)]: the array the variable holds grows by [x]. *)
Definition performanceData_push (x : sample) : M unit :=
  fun w => (tt, with_performanceData (performanceData w ++ [x]) w, []).

Fixpoint repeat_M (n : nat) (m : M unit) : M unit :=
  match n with
  | O => ret tt
  | S n => bind m (fun _ => repeat_M n m)
  end.

(** ** The handlers *)

Local Open Scope harness_scope.

Definition HIGH_PERFORMANCE_MACHINE : bool := false.

Definition onResizeWindow (innerWidth innerHeight : N) : M unit :=
  fun w => (tt, with_canvas innerWidth innerHeight w, []).

Definition onMouseMove : M unit :=
  set_mouseMovedThisFrame true.

(** [zip.generateAsync({type: "blob"})]: the promise is pending. *)
Definition generateAsync (files : zip) : M unit :=
  fun w => (tt, with_generating (generating w ++ [files]) w,
            [Call (zip_generateAsync files)]).

(** The link made for the blob, named, clicked and removed. *)
Definition download (name : string) (content : zip) : M unit :=
  fun w => (tt, with_downloaded (downloaded w ++ [(name, content)]) w,
            [Call (link_click name content)]).

Definition onClick : M unit :=
  busy <- get_isProcessingClick ;;
  if busy then ret tt
  else
    set_isProcessingClick true ;;
    data <- get_performanceData ;;
    let stats := calculateStatistics data in
    do_call (console_log_stats stats) ;;
    fold_right (fun line k => do_call (console_log line) ;; k) (ret tt)
               (consoleLines stats) ;;
    let statsText := statsText stats in
    data' <- get_performanceData ;;
    let csvContent := csvContent data' in
    let zip := [ ("performance_data.csv", csvContent);
                 ("statistics.txt", statsText) ]%string in
    generateAsync zip ;;
    set_performanceData [].

(** The function given to [then]: it runs when the bundle is packaged. *)
Definition onZipGenerated (content : zip) : M unit :=
  download "performance_data.zip" content ;;
  set_isProcessingClick false.

(** [renderLoop(time)]; [start] and [end_] are what the two calls of
    [performance.now()] return. *)
Definition renderLoop (time start end_ : number) : M unit :=
  last <- get_lastTime ;;
  (if negb (ToBoolean last) then set_lastTime time else ret tt) ;;
  last <- get_lastTime ;;
  let elapsedTimeMs := (time - last)%float in
  let elapsedTimeSec := (elapsedTimeMs / 1000)%float in
  set_lastTime time ;;
  do_call renderer_clear ;;
  do_call (stateMachine_advance elapsedTimeSec) ;;
  do_call (artboard_advance elapsedTimeSec) ;;
  do_call renderer_save ;;
  (fun w => do_call (renderer_align (canvas_width w) (canvas_height w)) w) ;;
  do_call (performance_now start) ;;
  (if HIGH_PERFORMANCE_MACHINE
   then repeat_M 2000 (do_call artboard_draw)
   else do_call artboard_draw) ;;
  do_call (performance_now end_) ;;
  let drawTime := (end_ - start)%float in
  _ <- get_performanceData ;;
  moved <- get_mouseMovedThisFrame ;;
  performanceData_push {| ms := drawTime; mouseMoved := moved |} ;;
  do_call renderer_restore ;;
  do_call rive_resolveAnimationFrame ;;
  do_call requestAnimationFrame_renderLoop ;;
  set_mouseMovedThisFrame false.

(** ** The event loop *)

(** What the browser delivers to the page, one at a time. *)
Inductive event :=
| mousemove
| click
| resize (innerWidth innerHeight : N)
| animationFrame (time start end_ : number)
| zipGenerated.

Definition dispatch (e : event) : M unit :=
  match e with
  | mousemove => onMouseMove
  | click => onClick
  | resize innerWidth innerHeight => onResizeWindow innerWidth innerHeight
  | animationFrame time start end_ => renderLoop time start end_
  | zipGenerated =>
      fun w => match generating w with
               | [] => (tt, w, [])
               | content :: pending =>
                   onZipGenerated content (with_generating pending w)
               end
  end.

Fixpoint run (events : list event) : M unit :=
  match events with
  | [] => ret tt
  | e :: events => dispatch e ;; run events
  end.

(** ** Observations on a run *)

Definition global_eqb (g g' : global) : bool :=
  match g, g' with
  | g_lastTime, g_lastTime
  | g_mouseMovedThisFrame, g_mouseMovedThisFrame
  | g_performanceData, g_performanceData
  | g_isProcessingClick, g_isProcessingClick => true
  | _, _ => false
  end.

(** The reads and assignments of one variable, in order. *)
Definition accesses (g : global) (l : list effect) : list effect :=
  filter (fun e => match e with
                   | Get g' | Assign g' => global_eqb g g'
                   | Call _ => false
                   end) l.

Fixpoint calls_of (l : list effect) : list call :=
  match l with
  | [] => []
  | Call c :: l => c :: calls_of l
  | _ :: l => calls_of l
  end.

(** The elapsed seconds handed to the simulation, call by call. *)
Fixpoint elapsed_arguments (l : list call) : list number :=
  match l with
  | [] => []
  | stateMachine_advance dt :: l | artboard_advance dt :: l =>
      dt :: elapsed_arguments l
  | _ :: l => elapsed_arguments l
  end.

Definition is_advance (c : call) : bool :=
  match c with
  | stateMachine_advance _ | artboard_advance _ => true
  | _ => false
  end.

Definition is_clear (c : call) : bool :=
  match c with renderer_clear => true | _ => false end.

Definition is_save_or_align (c : call) : bool :=
  match c with renderer_save | renderer_align _ _ => true | _ => false end.

(** The render setup: clear, save the transform, fit and align. *)
Definition is_render_setup (c : call) : bool :=
  is_clear c || is_save_or_align c.

(** Every call satisfying [p] is made before every call satisfying [q]. *)
Fixpoint precedes (p q : call -> bool) (l : list call) : bool :=
  match l with
  | [] => true
  | c :: l => (if q c then negb (existsb p l) else true) && precedes p q l
  end.

(** The exports started and the resets of the buffer during a run. *)
Definition exports_started (l : list effect) : nat :=
  List.length (filter (fun c => match c with zip_generateAsync _ => true | _ => false end)
                      (calls_of l)).

Definition buffer_resets (l : list effect) : nat :=
  List.length (filter (fun e => match e with Assign g_performanceData => true | _ => false end) l).

(** No packaging completes during these events. *)
Definition in_flight (events : list event) : bool :=
  forallb (fun e => match e with zipGenerated => false | _ => true end) events.

(** The samples that the frames among the events append, each tagged by
    whether the mouse moved since the frame before ([moved]: whether it
    moved before the first of the events). *)
Fixpoint appended (moved : bool) (events : list event) : list sample :=
  match events with
  | [] => []
  | mousemove :: events => appended true events
  | animationFrame _ start end_ :: events =>
      {| ms := (end_ - start)%float; mouseMoved := moved |} :: appended false events
  | _ :: events => appended moved events
  end.

(** The elapsed seconds of a frame at [time]: [lastTime] is first set to
    [time] when it is falsy. *)
Definition elapsedTimeSec (w : world) (time : number) : number :=
  ((time - (if ToBoolean (lastTime w) then lastTime w else time)) / 1000)%float.

(** What [renderLoop] does between its accesses to [lastTime] and its last
    assignment. *)
Definition frame_effects (w : world) (time start end_ : number) : list effect :=
  [ Call renderer_clear;
    Call (stateMachine_advance (elapsedTimeSec w time));
    Call (artboard_advance (elapsedTimeSec w time));
    Call renderer_save;
    Call (renderer_align (canvas_width w) (canvas_height w));
    Call (performance_now start);
    Call artboard_draw;
    Call (performance_now end_);
    Get g_performanceData;
    Get g_mouseMovedThisFrame;
    Call renderer_restore;
    Call rive_resolveAnimationFrame;
    Call requestAnimationFrame_renderLoop;
    Assign g_mouseMovedThisFrame ].

(** The guard and the pending packaging agree: one bundle is being
    packaged exactly while [isProcessingClick] holds. *)
Definition guard_consistent (w : world) : Prop :=
  if isProcessingClick w then exists content, generating w = [content]
  else generating w = [].

(** ** Reading the exported table back *)

(** The reader that the round trip of the table is stated with; it is not
    part of [game.ts]. *)
Module Reader.
Local Open Scope string_scope.
Local Open Scope Z_scope.

(** *** Numbers *)

Definition is_digit (c : ascii) : bool :=
  (48 <=? nat_of_ascii c)%nat && (nat_of_ascii c <=? 57)%nat.

Fixpoint span_digits (s : string) : string * string :=
  match s with
  | String c r =>
      if is_digit c then let '(d, t) := span_digits r in (String c d, t)
      else ("", s)
  | EmptyString => ("", "")
  end.

Fixpoint digits_value (acc : Z) (ds : string) : Z :=
  match ds with
  | String c r => digits_value (10 * acc + Z.of_nat (nat_of_ascii c - 48)) r
  | EmptyString => acc
  end.

Definition split_sign (s : string) : bool * string :=
  match s with
  | String c r =>
      if Ascii.eqb c "-" then (true, r)
      else if Ascii.eqb c "+" then (false, r)
      else (false, s)
  | EmptyString => (false, s)
  end.

(** The exponent part of a decimal literal: [e] or [E], a sign, digits. *)
Definition exponent_part (s : string) : option (Z * string) :=
  match s with
  | String c r =>
      if (Ascii.eqb c "e" || Ascii.eqb c "E")%bool then
        let '(neg, r) := split_sign r in
        let '(ds, t) := span_digits r in
        match ds with
        | EmptyString => None
        | _ => Some (if neg then - digits_value 0 ds else digits_value 0 ds, t)
        end
      else Some (0, s)
  | EmptyString => Some (0, s)
  end.

(** A decimal literal without sign: digits with an optional fraction and
    an optional exponent; the natural [s] and the [q] of its value
    [s * 10^q]. *)
Definition decimal_literal (body : string) : option (Z * Z) :=
  let '(ip, r1) := span_digits body in
  let '(fp, r2) := match r1 with
                   | String c r =>
                       if Ascii.eqb c "." then span_digits r
                       else (EmptyString, r1)
                   | EmptyString => (EmptyString, r1)
                   end in
  match ip ++ fp, exponent_part r2 with
  | String _ _ as ds, Some (ex, EmptyString) =>
      Some (digits_value 0 ds, ex - Z.of_nat (String.length fp))
  | _, _ => None
  end.

(** The number a text denotes: [Infinity] or a decimal literal, after an
    optional sign, correctly rounded as by StringToNumber; any other text,
    [NaN] included, is NaN. *)
Definition readNumber (str : string) : number :=
  let '(neg, body) := split_sign str in
  if String.eqb body "Infinity" then (if neg then neg_infinity else infinity)
  else
    match decimal_literal body with
    | Some (s, q) =>
        let v := SF_of_decimal s q in
        SF2Prim (if neg then SFopp v else v)
    | None => nan
    end.

(** *** The table *)

(** [text.split(sep)] for a separator of one character. *)
Fixpoint split (sep : ascii) (text : string) : list string :=
  match text with
  | EmptyString => [""]
  | String c rest =>
      if Ascii.eqb c sep then "" :: split sep rest
      else match split sep rest with
           | field :: fields => String c field :: fields
           | [] => [String c ""]
           end
  end.

Definition parseBoolean (text : string) : option bool :=
  if String.eqb text "true" then Some true
  else if String.eqb text "false" then Some false
  else None.

(** A line [<number>,<boolean>]. *)
Definition parseRow (line : string) : option sample :=
  match split "," line with
  | [duration; flag] =>
      match parseBoolean flag with
      | Some moved => Some {| ms := readNumber duration; mouseMoved := moved |}
      | None => None
      end
  | _ => None
  end.




End Reader.

Import Reader.

(** ** Predicates on texts and numbers *)

Fixpoint all_chars (p : ascii -> bool) (s : string) : bool :=
  match s with
  | EmptyString => true
  | String c s => p c && all_chars p s
  end.

(** The text is empty or starts with a character that is no digit. *)
Definition stops (s : string) : bool :=
  match s with
  | EmptyString => true
  | String c _ => negb (is_digit c)
  end.

(** What may follow the digits of a literal: nothing, or an exponent. *)
Definition exponent_or_end (tail : string) : bool :=
  match tail with
  | EmptyString => true
  | String c _ => Ascii.eqb c "e"
  end.

Definition differs (sep : ascii) (c : ascii) : bool := negb (Ascii.eqb c sep).

(** Neither a comma nor a line feed: the separators of the table. *)
Definition plain (c : ascii) : bool := differs "," c && differs "010" c.

(** [Object.is(x, y)] on numbers: the same value, [NaN] being itself and
    [-0] not being [+0]. *)
Definition Object_is (x y : number) : bool := Leibniz.eqb x y.


(** ** Further observations *)

(** No click among these events. *)
Definition no_click (events : list event) : bool :=
  forallb (fun e => match e with click => false | _ => true end) events.

Definition count_frames (events : list event) : nat :=
  List.length (filter (fun e => match e with animationFrame _ _ _ => true | _ => false end)
                      events).

(** How many calls of a run satisfy [p]. *)
Definition count_calls (p : call -> bool) (l : list effect) : nat :=
  List.length (filter p (calls_of l)).

Definition is_request (c : call) : bool :=
  match c with requestAnimationFrame_renderLoop => true | _ => false end.
Definition is_draw (c : call) : bool :=
  match c with artboard_draw => true | _ => false end.
Definition is_now (c : call) : bool :=
  match c with performance_now _ => true | _ => false end.
Definition is_save (c : call) : bool :=
  match c with renderer_save => true | _ => false end.
Definition is_restore (c : call) : bool :=
  match c with renderer_restore => true | _ => false end.

(** The calls made after the first reading of the clock and before the
    next one. *)
Fixpoint until_now (l : list call) : list call :=
  match l with
  | [] => []
  | performance_now _ :: _ => []
  | c :: l => c :: until_now l
  end.

Fixpoint timed_region (l : list call) : list call :=
  match l with
  | [] => []
  | performance_now _ :: l => until_now l
  | _ :: l => timed_region l
  end.

(** The file that the completion of the packaging of [data] hands over. *)
Definition download_of (data : list sample) : string * zip :=
  ("performance_data.zip"%string, bundle data).

(** The samples of a run are accounted for: the downloads and the pending
    bundles are those of successive buffers, which with the present buffer
    make up [history]. *)
Definition accounted (w : world) (history : list sample) : Prop :=
  exists exported pending : list (list sample),
    downloaded w = map download_of exported
    /\ generating w = map bundle pending
    /\ List.concat exported ++ List.concat pending ++ performanceData w = history.


(** The calls of the loop itself, to the renderer, the simulation, the
    clock and the frame scheduler: [p] holds of no call of the export. *)
Definition of_the_frame (p : call -> bool) : Prop :=
  (forall stats, p (console_log_stats stats) = false)
  /\ (forall line, p (console_log line) = false)
  /\ (forall files, p (zip_generateAsync files) = false)
  /\ (forall name content, p (link_click name content) = false).

(** The events of the export: a click, the completion of a packaging. *)
Definition of_the_export (e : event) : bool :=
  match e with click | zipGenerated => true | _ => false end.

(** ** The earlier copy of the page *)

(** The second source file of the repository differs from [game.ts] in its
    export: a click downloads the table alone, as a data URI, and there is
    no guard. *)
Module Earlier.
Local Open Scope string_scope.

Definition hex (n : nat) : ascii :=
  match get n "0123456789ABCDEF" with Some c => c | None => "0"%char end.

(** [%XX] for a byte. *)
Definition escape (c : ascii) : string :=
  String "%" (String (hex (nat_of_ascii c / 16))
                     (String (hex (nat_of_ascii c mod 16)) "")).

Definition is_alpha (c : ascii) : bool :=
  let n := nat_of_ascii c in
  ((65 <=? n) && (n <=? 90) || (97 <=? n) && (n <=? 122))%nat.

Definition one_of (set : string) (c : ascii) : bool :=
  match index 0 (String c "") set with Some _ => true | None => false end.

(** What [encodeURI] leaves as it is: letters, digits, the marks, the
    reserved characters and the number sign. *)
Definition unescaped (c : ascii) : bool :=
  is_alpha c || is_digit c || one_of "-_.!~*'();/?:@&=+$,#" c.

(** [encodeURI] on a text of UTF-8 bytes: every other byte is escaped. *)
Fixpoint encodeURI (uri : string) : string :=
  match uri with
  | EmptyString => ""
  | String c rest =>
      (if unescaped c then String c "" else escape c) ++ encodeURI rest
  end.

(** The link that [downloadCSV] makes and clicks. *)
Record link := { href : string; download : string }.

Definition downloadCSV (data : list sample) : link :=
  let csvContent := "data:text/csv;charset=utf-8,"
                    ++ ("DrawTime(ms),MouseMoved" ++ LF)
                    ++ String.concat LF (map csvRow data) in
  let encodedUri := encodeURI csvContent in
  {| href := encodedUri; download := "performance_data.csv" |}.

End Earlier.

(* ===================================================================== *)
(** * Part II: theorems *)
(* ===================================================================== *)

(** ** Binary64 facts *)

Section Binary64.
Local Open Scope float_scope.

Lemma Prim2SF_nan : Prim2SF nan = S754_nan.
Proof. reflexivity. Qed.

Lemma sub_nan_l (y : number) : nan - y = nan.
Proof.
  apply Prim2SF_inj. rewrite sub_spec, Prim2SF_nan. reflexivity.
Qed.


(** A finite number is a zero or [m * 2^e]. *)
Lemma is_finite_cases (x : number) :
  is_finite x = true ->
  (exists s, Prim2SF x = S754_zero s) \/ (exists s m e, Prim2SF x = S754_finite s m e).
Proof.
  unfold is_finite, is_nan, is_infinity. intros H.
  apply negb_true_iff, orb_false_iff in H. destruct H as [Hn Hi].
  rewrite eqb_spec in Hn, Hi. rewrite abs_spec in Hi.
  destruct (Prim2SF x) as [s|s| |s m e].
  - left. now exists s.
  - discriminate Hi.
  - discriminate Hn.
  - right. now exists s, m, e.
Qed.

(** Rounding to nearest, a finite number minus itself is [+0]. *)
Lemma sub_diag_finite (x : number) : is_finite x = true -> x - x = 0.
Proof.
  intros H. apply Prim2SF_inj. rewrite sub_spec.
  destruct (is_finite_cases x H) as [[s E] | (s & m & e & E)]; rewrite E.
  - destruct s; reflexivity.
  - unfold SF64sub, SFsub. rewrite Z.sub_diag. reflexivity.
Qed.

Lemma neg_zero_not_zero : neg_zero <> 0.
Proof.
  intros H. apply (f_equal Prim2SF) in H. vm_compute in H. discriminate H.
Qed.

End Binary64.

(** ** The runtime model on known values *)

Section KnownValues.
Local Open Scope float_scope.
Local Open Scope string_scope.

(** What a JavaScript engine prints for these numbers. *)
Example Number_toString_known :
  map Number_toString
    [ 1 / 10; 1 / 10 + 2 / 10; 100; 1.5; -17.25; 1000000000000000000000;
      1 / 10000000; 1 / 1000000; 9007199254740992; 123456789012345683968;
      0x1p-1074; 0; neg_zero; nan; infinity; neg_infinity ]
  = [ "0.1"; "0.30000000000000004"; "100"; "1.5"; "-17.25"; "1e+21";
      "1e-7"; "0.000001"; "9007199254740992"; "123456789012345680000";
      "5e-324"; "0"; "0"; "NaN"; "Infinity"; "-Infinity" ].
Proof. vm_compute. reflexivity. Qed.

Example Number_toFixed_known :
  map (fun x => Number_toFixed x 2)
    [ 20; 2.5; 1005 / 1000; 123.5; -1.5; 0; neg_zero; -1 / 1000; nan;
      1000000000000000000000 ]
  = [ "20.00"; "2.50"; "1.00"; "123.50"; "-1.50"; "0.00"; "0.00"; "-0.00";
      "NaN"; "1e+21" ].
Proof. vm_compute. reflexivity. Qed.

Example readNumber_known :
  map readNumber [ "0.1"; "1.5e3"; "-17.25"; "1e+21"; "5e-324"; "Infinity";
                   "-0"; "NaN"; "12,3" ]
  = [ 1 / 10; 1500; -17.25; 1000000000000000000000; 0x1p-1074; infinity;
      neg_zero; nan; nan ].
Proof. vm_compute. reflexivity. Qed.

(** The summary of the buffer [{10,true}; {20,false}; {30,true}]. *)
Example statsText_known :
  statsText (calculateStatistics
               [mkSample 10 true; mkSample 20 false; mkSample 30 true])
  = "Performance Statistics Summary" ++ LF
    ++ "--------------------------------" ++ LF
    ++ "Performance impact of mouse movement: 0.00ms" ++ LF
    ++ LF ++ "Mouse Moved Frames:" ++ LF
    ++ "Count: 2" ++ LF ++ "Mean: 20.00ms" ++ LF
    ++ "Standard Deviation: " ++ plus_minus ++ "10.00" ++ LF
    ++ LF ++ "Static Frames:" ++ LF
    ++ "Count: 1" ++ LF ++ "Mean: 20.00ms" ++ LF
    ++ "Standard Deviation: " ++ plus_minus ++ "0.00".
Proof. vm_compute. reflexivity. Qed.

(** A page: a frame, a mouse move, a frame, a click, a frame, and the
    completion of the packaging. *)
Example run_known :
  let w := world_after
             (run [ animationFrame 1000 5 6; mousemove; animationFrame 1016 7 9;
                    click; animationFrame 1032 10 14; zipGenerated ]
                  (initial 800 600)) in
  performanceData w = [mkSample 4 false]
  /\ downloaded w
     = [("performance_data.zip", bundle [mkSample 1 false; mkSample 2 true])]
  /\ isProcessingClick w = false
  /\ lastTime w = 1032.
Proof. vm_compute. repeat split. Qed.

End KnownValues.

(** ** The statistics *)

Lemma meanOf_nil : meanOf [] = nan.
Proof. reflexivity. Qed.

Lemma stdDevOf_nil (m : number) : stdDevOf [] m = nan.
Proof. reflexivity. Qed.


(** C1. On the buffer [{10,true}; {20,false}; {30,true}] the moved group is
    [{count: 2, mean: 20, stdDev: 10}], the static group is
    [{count: 1, mean: 20, stdDev: 0}] and the difference is [0]. *)
Theorem calculateStatistics_scenario :
  calculateStatistics
    [mkSample 10 true; mkSample 20 false; mkSample 30 true]
  = {| mouseMovedStats := {| count := 2; mean := 20; stdDev := 10 |};
       mouseNotMovedStats := {| count := 1; mean := 20; stdDev := 0 |};
       difference := 0 |}.
Proof. vm_compute. reflexivity. Qed.

(** C5. The two groups partition the buffer: their counts add up to the
    length of the input. *)
Theorem calculateStatistics_counts (data : list sample) :
  (count (mouseMovedStats (calculateStatistics data))
   + count (mouseNotMovedStats (calculateStatistics data)))%nat
  = List.length data.
Proof.
  cbn [calculateStatistics mouseMovedStats mouseNotMovedStats count].
  unfold mouseMovedTimes, mouseNotMovedTimes. rewrite !length_map.
  induction data as [|d data IH]; [reflexivity|].
  cbn [filter List.length]. destruct (mouseMoved d); cbn [negb List.length]; lia.
Qed.



(** ** The frame callback *)

(** One frame, in full. *)
Lemma renderLoop_run (w : world) (time start end_ : number) :
  renderLoop time start end_ w
  = (tt,
     with_mouseMovedThisFrame false
       (with_performanceData
          (performanceData w
           ++ [{| ms := (end_ - start)%float; mouseMoved := mouseMovedThisFrame w |}])
          (with_lastTime time w)),
     (if ToBoolean (lastTime w)
      then [Get g_lastTime; Get g_lastTime; Assign g_lastTime]
      else [Get g_lastTime; Assign g_lastTime; Get g_lastTime; Assign g_lastTime])
     ++ frame_effects w time start end_).
Proof.
  unfold renderLoop, frame_effects, elapsedTimeSec.
  cbv [bind get_lastTime set_lastTime do_call ret get_performanceData
       get_mouseMovedThisFrame performanceData_push set_mouseMovedThisFrame
       HIGH_PERFORMANCE_MACHINE].
  destruct (ToBoolean (lastTime w)); reflexivity.
Qed.

Lemma calls_of_app (l l' : list effect) :
  calls_of (l ++ l') = calls_of l ++ calls_of l'.
Proof.
  induction l as [|[g|g|c] l IH]; cbn [calls_of app]; [reflexivity | assumption ..|].
  now rewrite IH.
Qed.

Lemma accesses_app (g : global) (l l' : list effect) :
  accesses g (l ++ l') = accesses g l ++ accesses g l'.
Proof. apply filter_app. Qed.

(** The calls of one frame. *)
Lemma renderLoop_calls (w : world) (time start end_ : number) :
  calls_of (effects (renderLoop time start end_ w))
  = [ renderer_clear;
      stateMachine_advance (elapsedTimeSec w time);
      artboard_advance (elapsedTimeSec w time);
      renderer_save;
      renderer_align (canvas_width w) (canvas_height w);
      performance_now start;
      artboard_draw;
      performance_now end_;
      renderer_restore;
      rive_resolveAnimationFrame;
      requestAnimationFrame_renderLoop ].
Proof.
  rewrite renderLoop_run. unfold effects. cbn [snd].
  rewrite calls_of_app. destruct (ToBoolean (lastTime w)); reflexivity.
Qed.

(** C7, as claimed, fails after a frame at time zero: [lastTime] is then
    set to that time, 0, and yet the next frame, at 16, advances the
    simulation by zero seconds and not by [(16 - 0) / 1000]. *)
Lemma renderLoop_after_frame_at_zero :
  let first := world_after (renderLoop 0 5 6 (initial 800 600)) in
  let second := renderLoop 16 7 8 first in
  lastTime first = 0%float
  /\ elapsed_arguments (calls_of (effects second)) = [0%float; 0%float]
  /\ elapsed_arguments (calls_of (effects second))
     <> [((16 - lastTime first) / 1000)%float; ((16 - lastTime first) / 1000)%float].
Proof.
  cbn zeta. split; [reflexivity|]. split; [vm_compute; reflexivity|].
  intros H.
  apply (f_equal (fun l => match l with
                           | dt :: _ => Prim2SF dt
                           | [] => S754_nan
                           end)) in H.
  vm_compute in H. discriminate H.
Qed.

(** C7, amended. After a frame at [time], [lastTime] is [time]; when
    [lastTime] was truthy, the simulation advances by
    [(time - lastTime) / 1000] seconds; when it was falsy (the initial 0,
    which stands for unset, or the 0 that a frame at time zero leaves), by
    zero seconds, for a finite [time]. *)
Theorem renderLoop_elapsed (w : world) (time start end_ : number) :
  let r := renderLoop time start end_ w in
  lastTime (world_after r) = time
  /\ (ToBoolean (lastTime w) = true ->
      elapsed_arguments (calls_of (effects r))
      = [((time - lastTime w) / 1000)%float; ((time - lastTime w) / 1000)%float])
  /\ (ToBoolean (lastTime w) = false -> is_finite time = true ->
      elapsed_arguments (calls_of (effects r)) = [0%float; 0%float]).
Proof.
  cbn zeta. rewrite renderLoop_calls. rewrite renderLoop_run.
  cbn [elapsed_arguments world_after fst snd]. unfold elapsedTimeSec.
  split; [reflexivity|]. split.
  - intros ->. reflexivity.
  - intros -> Hfin. rewrite (sub_diag_finite time Hfin). reflexivity.
Qed.

(** The first two frames of a page: the first finds [lastTime] unset. *)
Lemma renderLoop_elapsed_witness :
  let w0 := initial 800 600 in
  let r1 := renderLoop 1000 5 6 w0 in
  let r2 := renderLoop 1016 7 8 (world_after r1) in
  (lastTime (world_after r1) = 1000%float
   /\ elapsed_arguments (calls_of (effects r1)) = [0%float; 0%float])
  /\ (lastTime (world_after r2) = 1016%float
      /\ elapsed_arguments (calls_of (effects r2))
         = [((1016 - 1000) / 1000)%float; ((1016 - 1000) / 1000)%float]).
Proof.
  cbn zeta. split.
  - destruct (renderLoop_elapsed (initial 800 600) 1000 5 6) as (H1 & _ & H3).
    split; [exact H1 | apply H3; reflexivity].
  - destruct (renderLoop_elapsed (world_after (renderLoop 1000 5 6 (initial 800 600)))
                1016 7 8) as (H1 & H2 & _).
    split; [exact H1 | apply H2; reflexivity].
Defined.

(** C8. A frame appends exactly one sample, tagged with the value the flag
    [mouseMovedThisFrame] has in that frame, and leaves the flag false; the
    flag is read once and assigned once. *)
Theorem renderLoop_sample (w : world) (time start end_ : number) :
  let r := renderLoop time start end_ w in
  performanceData (world_after r)
  = performanceData w
    ++ [{| ms := (end_ - start)%float; mouseMoved := mouseMovedThisFrame w |}]
  /\ mouseMovedThisFrame (world_after r) = false
  /\ accesses g_mouseMovedThisFrame (effects r)
     = [Get g_mouseMovedThisFrame; Assign g_mouseMovedThisFrame].
Proof.
  cbn zeta. rewrite renderLoop_run. unfold effects, world_after. cbn [fst snd].
  split; [reflexivity|]. split; [reflexivity|].
  rewrite accesses_app. destruct (ToBoolean (lastTime w)); reflexivity.
Qed.

(** C9, as claimed, fails: in the first frame of a page the renderer is
    cleared before the simulation advances, so the advance does not come
    before the whole of the render setup. *)
Lemma renderLoop_clears_before_advance :
  calls_of (effects (renderLoop 1000 5 6 (initial 800 600)))
  = [ renderer_clear; stateMachine_advance 0; artboard_advance 0;
      renderer_save; renderer_align 800 600; performance_now 5;
      artboard_draw; performance_now 6; renderer_restore;
      rive_resolveAnimationFrame; requestAnimationFrame_renderLoop ]
  /\ precedes is_advance is_render_setup
       (calls_of (effects (renderLoop 1000 5 6 (initial 800 600)))) = false.
Proof. split; vm_compute; reflexivity. Qed.

(** C9, amended. In every frame the renderer is cleared first, then the
    simulation advances (state machine, then artboard) by the elapsed
    seconds, and only then the transform is saved and the alignment
    computed. *)
Theorem renderLoop_order (w : world) (time start end_ : number) :
  let calls := calls_of (effects (renderLoop time start end_ w)) in
  firstn 5 calls
  = [ renderer_clear;
      stateMachine_advance (elapsedTimeSec w time);
      artboard_advance (elapsedTimeSec w time);
      renderer_save;
      renderer_align (canvas_width w) (canvas_height w) ]
  /\ precedes is_clear is_advance calls = true
  /\ precedes is_advance is_save_or_align calls = true.
Proof.
  cbn zeta. rewrite renderLoop_calls. repeat split.
Qed.

(** ** The export *)

(** A click while no export is in progress, in full. *)
Lemma onClick_idle (w : world) :
  isProcessingClick w = false ->
  onClick w
  = (tt,
     with_performanceData []
       (with_generating (generating w ++ [bundle (performanceData w)])
          (with_isProcessingClick true w)),
     [Get g_isProcessingClick; Assign g_isProcessingClick; Get g_performanceData;
      Call (console_log_stats (calculateStatistics (performanceData w)))]
     ++ map (fun line => Call (console_log line))
            (consoleLines (calculateStatistics (performanceData w)))
     ++ [Get g_performanceData;
         Call (zip_generateAsync (bundle (performanceData w)));
         Assign g_performanceData]).
Proof.
  intros Hidle. unfold onClick, bundle, consoleLines.
  cbv [bind get_isProcessingClick set_isProcessingClick get_performanceData
       set_performanceData do_call ret generateAsync fold_right map app].
  rewrite Hidle. reflexivity.
Qed.

(** A click while an export is in progress: the guard is read, no more. *)
Lemma onClick_busy (w : world) :
  isProcessingClick w = true ->
  onClick w = (tt, w, [Get g_isProcessingClick]).
Proof.
  intros Hbusy. unfold onClick.
  cbv [bind get_isProcessingClick ret app]. rewrite Hbusy. reflexivity.
Qed.

Lemma world_after_pair {A} (a : A) (w : world) (l : list effect) :
  world_after (a, w, l) = w.
Proof. reflexivity. Qed.

Lemma effects_pair {A} (a : A) (w : world) (l : list effect) :
  effects (a, w, l) = l.
Proof. reflexivity. Qed.

Lemma run_cons (e : event) (events : list event) (w : world) :
  run (e :: events) w
  = (tt, world_after (run events (world_after (dispatch e w))),
     effects (dispatch e w) ++ effects (run events (world_after (dispatch e w)))).
Proof.
  cbn [run]. unfold bind, world_after, effects.
  destruct (dispatch e w) as [[[] w1] l1]. cbn [fst snd].
  destruct (run events w1) as [[[] w2] l2]. reflexivity.
Qed.

Lemma run_app (events events' : list event) (w : world) :
  run (events ++ events') w
  = (tt, world_after (run events' (world_after (run events w))),
     effects (run events w) ++ effects (run events' (world_after (run events w)))).
Proof.
  revert w. induction events as [|e events IH]; intros w.
  - cbn [app run]. unfold ret, world_after, effects. cbn [fst snd app].
    destruct (run events' w) as [[[] w2] l2]. reflexivity.
  - cbn [app]. rewrite !run_cons. rewrite IH.
    unfold world_after, effects. cbn [fst snd]. now rewrite app_assoc.
Qed.

Lemma exports_started_app (l l' : list effect) :
  exports_started (l ++ l') = (exports_started l + exports_started l')%nat.
Proof.
  unfold exports_started. now rewrite calls_of_app, filter_app, length_app.
Qed.

Lemma buffer_resets_app (l l' : list effect) :
  buffer_resets (l ++ l') = (buffer_resets l + buffer_resets l')%nat.
Proof.
  unfold buffer_resets. now rewrite filter_app, length_app.
Qed.

Lemma exports_started_console (lines : list string) :
  exports_started (map (fun line => Call (console_log line)) lines) = 0%nat.
Proof. induction lines as [|line lines IH]; [reflexivity | exact IH]. Qed.

Lemma buffer_resets_console (lines : list string) :
  buffer_resets (map (fun line => Call (console_log line)) lines) = 0%nat.
Proof. induction lines as [|line lines IH]; [reflexivity | exact IH]. Qed.

(** One event other than the completion, while an export is in progress:
    the guard, the pending bundle and the downloads stay, nothing is
    exported, and the buffer only grows by what a frame appends. *)
Lemma dispatch_while_busy (e : event) (w : world) :
  isProcessingClick w = true ->
  in_flight [e] = true ->
  let r := dispatch e w in
  isProcessingClick (world_after r) = true
  /\ generating (world_after r) = generating w
  /\ downloaded (world_after r) = downloaded w
  /\ (forall events,
        performanceData (world_after r)
        ++ appended (mouseMovedThisFrame (world_after r)) events
        = performanceData w ++ appended (mouseMovedThisFrame w) (e :: events))
  /\ exports_started (effects r) = 0%nat
  /\ buffer_resets (effects r) = 0%nat.
Proof.
  intros Hbusy He. cbn zeta.
  destruct e as [| |iw ih|time start end_|]; cbn [dispatch appended].
  - repeat split; assumption.
  - rewrite (onClick_busy w Hbusy). repeat split; assumption.
  - repeat split; assumption.
  - rewrite renderLoop_run. unfold world_after, effects. cbn [fst snd].
    repeat split; try assumption.
    + intros events.
      cbn [performanceData mouseMovedThisFrame with_mouseMovedThisFrame
           with_performanceData].
      now rewrite <- app_assoc.
    + rewrite exports_started_app. destruct (ToBoolean (lastTime w)); reflexivity.
    + rewrite buffer_resets_app. destruct (ToBoolean (lastTime w)); reflexivity.
  - discriminate He.
Qed.

(** Any events while an export is in progress and its packaging pending. *)
Lemma run_while_busy (events : list event) :
  forall w : world,
  isProcessingClick w = true ->
  in_flight events = true ->
  let r := run events w in
  isProcessingClick (world_after r) = true
  /\ generating (world_after r) = generating w
  /\ downloaded (world_after r) = downloaded w
  /\ performanceData (world_after r)
     = performanceData w ++ appended (mouseMovedThisFrame w) events
  /\ exports_started (effects r) = 0%nat
  /\ buffer_resets (effects r) = 0%nat.
Proof.
  induction events as [|e events IH]; intros w Hbusy Hev; cbn zeta.
  - cbn [run appended]. unfold ret, world_after, effects. cbn [fst snd].
    rewrite app_nil_r. repeat split; assumption.
  - cbn [in_flight forallb] in Hev. apply andb_true_iff in Hev.
    destruct Hev as [He Hev].
    assert (He' : in_flight [e] = true)
      by (cbn [in_flight forallb]; now rewrite He).
    destruct (dispatch_while_busy e w Hbusy He') as (B & G & D & P & X & R).
    destruct (IH (world_after (dispatch e w)) B Hev) as (B' & G' & D' & P' & X' & R').
    rewrite run_cons, world_after_pair, effects_pair.
    rewrite exports_started_app, buffer_resets_app, X, R, X', R'.
    split; [exact B'|]. split; [congruence|]. split; [congruence|].
    split; [rewrite P'; apply P|]. split; reflexivity.
Qed.

(** The packaging of the oldest pending bundle completes. *)
Lemma dispatch_zipGenerated (w : world) (content : zip) (pending : list zip) :
  generating w = content :: pending ->
  dispatch zipGenerated w
  = (tt,
     with_isProcessingClick false
       (with_downloaded (downloaded w ++ [("performance_data.zip"%string, content)])
          (with_generating pending w)),
     [Call (link_click "performance_data.zip" content); Assign g_isProcessingClick]).
Proof. intros H. cbn [dispatch]. rewrite H. reflexivity. Qed.

(** The guard agrees with the pending packaging in every state of a page. *)
Lemma dispatch_guard_consistent (e : event) (w : world) :
  guard_consistent w -> guard_consistent (world_after (dispatch e w)).
Proof.
  unfold guard_consistent. intros H.
  destruct e as [| |iw ih|time start end_|]; cbn [dispatch].
  - exact H.
  - destruct (isProcessingClick w) eqn:Hbusy.
    + rewrite (onClick_busy w Hbusy), world_after_pair. now rewrite Hbusy.
    + rewrite (onClick_idle w Hbusy), world_after_pair.
      cbn [isProcessingClick generating with_performanceData with_generating
           with_isProcessingClick].
      rewrite H. now eexists.
  - exact H.
  - rewrite renderLoop_run, world_after_pair. exact H.
  - destruct (generating w) as [|content pending] eqn:Hg.
    + rewrite world_after_pair, Hg. exact H.
    + destruct (isProcessingClick w).
      * destruct H as [c H]. injection H as _ ->. reflexivity.
      * discriminate H.
Qed.

Lemma run_guard_consistent (events : list event) :
  forall w, guard_consistent w -> guard_consistent (world_after (run events w)).
Proof.
  induction events as [|e events IH]; intros w H.
  - exact H.
  - rewrite run_cons, world_after_pair. now apply IH, dispatch_guard_consistent.
Qed.

Lemma reachable_guard_consistent (innerWidth innerHeight : N) (events : list event) :
  guard_consistent (world_after (run events (initial innerWidth innerHeight))).
Proof. apply run_guard_consistent. reflexivity. Qed.

Lemma idle_nothing_pending (w : world) :
  guard_consistent w -> isProcessingClick w = false -> generating w = [].
Proof. unfold guard_consistent. intros H E. now rewrite E in H. Qed.

(** C2. A click while no export is in progress empties the buffer at once,
    while the packaging is still pending; the artifact is the bundle of the
    buffer as it was at the click, whatever happens until the packaging
    completes; the samples appended meanwhile are in the buffer, and the
    next export bundles them. *)
Theorem export_takes_buffer_at_trigger (w : world) (events : list event) :
  guard_consistent w ->
  isProcessingClick w = false ->
  in_flight events = true ->
  let triggered := world_after (onClick w) in
  let before_completion := world_after (run events triggered) in
  let completed := world_after (dispatch zipGenerated before_completion) in
  let next := world_after (onClick completed) in
  (performanceData triggered = []
   /\ generating triggered = [bundle (performanceData w)]
   /\ downloaded triggered = downloaded w)
  /\ (performanceData before_completion = appended (mouseMovedThisFrame w) events
      /\ generating before_completion = [bundle (performanceData w)]
      /\ downloaded before_completion = downloaded w)
  /\ (downloaded completed
      = downloaded w ++ [("performance_data.zip"%string, bundle (performanceData w))]
      /\ performanceData completed = appended (mouseMovedThisFrame w) events)
  /\ generating next = [bundle (appended (mouseMovedThisFrame w) events)].
Proof.
  intros Hguard Hidle Hev. cbn zeta.
  pose proof (idle_nothing_pending w Hguard Hidle) as Hnone.
  rewrite (onClick_idle w Hidle), world_after_pair.
  set (triggered := with_performanceData [] _).
  assert (Hbusy : isProcessingClick triggered = true) by reflexivity.
  assert (Hgen : generating triggered = [bundle (performanceData w)])
    by (unfold triggered; cbn [generating with_performanceData with_generating];
        now rewrite Hnone).
  destruct (run_while_busy events triggered Hbusy Hev) as (B & G & D & P & _ & _).
  set (before_completion := world_after (run events triggered)) in *.
  rewrite Hgen in G.
  rewrite (dispatch_zipGenerated before_completion _ _ G), world_after_pair.
  set (completed := with_isProcessingClick false _).
  assert (Hidle' : isProcessingClick completed = false) by reflexivity.
  rewrite (onClick_idle completed Hidle'), world_after_pair.
  split; [repeat split; exact Hgen|].
  split; [repeat split; [exact P | exact G | exact D]|].
  split.
  - split.
    + unfold completed.
      cbn [downloaded with_isProcessingClick with_downloaded]. now rewrite D.
    + exact P.
  - unfold completed.
    cbn [generating with_performanceData with_generating with_isProcessingClick
         with_downloaded performanceData app].
    now rewrite P.
Qed.

(** An export from a page with two samples, one frame and a mouse move
    away from the completion of its packaging. *)
Lemma export_takes_buffer_at_trigger_witness :
  let w := with_performanceData [mkSample 3 true; mkSample 4 false] (initial 800 600) in
  let events := [animationFrame 1000 5 6; mousemove; click; animationFrame 1016 7 9] in
  let completed := world_after (run (click :: events ++ [zipGenerated]) w) in
  downloaded completed
  = [("performance_data.zip"%string, bundle [mkSample 3 true; mkSample 4 false])]
  /\ performanceData completed
     = [mkSample (6 - 5) false; mkSample (9 - 7) true].
Proof.
  cbn zeta.
  set (w := with_performanceData _ _). set (events := [_; _; _; _]).
  destruct (export_takes_buffer_at_trigger w events eq_refl eq_refl eq_refl)
    as (_ & _ & (H1 & H2) & _).
  rewrite run_cons, world_after_pair, run_app, world_after_pair.
  change (run [zipGenerated] ?x) with (bind (dispatch zipGenerated) (fun _ => ret tt) x).
  unfold bind at 1 2.
  destruct (dispatch zipGenerated _) as [[[] w'] l'] eqn:E in H1, H2 |- *.
  rewrite world_after_pair in H1, H2.
  cbn [ret world_after fst snd]. split; [exact H1 | exact H2].
Defined.

(** C3. A click while the guard is set does nothing but read the guard: the
    world is unchanged.  The guard is set by the click that starts an export,
    stays set through every event but the completion of the packaging, and
    that completion clears it.  So however many clicks follow the first
    before its packaging completes, one export is started and the buffer is
    reset once. *)
Theorem export_guard (w : world) (events : list event) :
  (isProcessingClick w = true -> onClick w = (tt, w, [Get g_isProcessingClick]))
  /\ (isProcessingClick w = false ->
      isProcessingClick (world_after (onClick w)) = true)
  /\ (isProcessingClick w = true ->
      forall e, in_flight [e] = true ->
      isProcessingClick (world_after (dispatch e w)) = true)
  /\ (forall content pending, generating w = content :: pending ->
      isProcessingClick (world_after (dispatch zipGenerated w)) = false)
  /\ (guard_consistent w -> isProcessingClick w = false ->
      in_flight events = true ->
      let r := run (click :: events ++ [click]) w in
      let completed := world_after (dispatch zipGenerated (world_after r)) in
      exports_started (effects r) = 1%nat
      /\ buffer_resets (effects r) = 1%nat
      /\ generating (world_after r) = [bundle (performanceData w)]
      /\ downloaded (world_after r) = downloaded w
      /\ isProcessingClick (world_after r) = true
      /\ downloaded completed
         = downloaded w ++ [("performance_data.zip"%string, bundle (performanceData w))]
      /\ generating completed = []).
Proof.
  split; [exact (onClick_busy w)|].
  split; [intros Hidle; now rewrite (onClick_idle w Hidle)|].
  split; [intros Hbusy e He; apply (dispatch_while_busy e w Hbusy He)|].
  split; [intros content pending Hg;
          now rewrite (dispatch_zipGenerated w content pending Hg)|].
  intros Hguard Hidle Hev. cbn zeta.
  pose proof (idle_nothing_pending w Hguard Hidle) as Hnone.
  assert (Hev' : in_flight (events ++ [click]) = true).
  { unfold in_flight in *. rewrite forallb_app, Hev. reflexivity. }
  rewrite run_cons, world_after_pair, effects_pair.
  change (dispatch click w) with (onClick w).
  rewrite (onClick_idle w Hidle), world_after_pair, effects_pair.
  set (triggered := with_performanceData [] _).
  assert (Hbusy : isProcessingClick triggered = true) by reflexivity.
  destruct (run_while_busy (events ++ [click]) triggered Hbusy Hev')
    as (B & G & D & _ & X & R).
  rewrite !exports_started_app, !buffer_resets_app, X, R.
  rewrite exports_started_console, buffer_resets_console.
  assert (G' : generating (world_after (run (events ++ [click]) triggered))
               = [bundle (performanceData w)]).
  { rewrite G. unfold triggered.
    cbn [generating with_performanceData with_generating]. now rewrite Hnone. }
  rewrite (dispatch_zipGenerated _ _ _ G'), world_after_pair.
  cbn [downloaded generating with_isProcessingClick with_downloaded with_generating].
  rewrite D. repeat split; assumption.
Qed.

(** Two clicks with a frame in between, on a page with one sample; and a
    third click on the page the first one left. *)
Lemma export_guard_witness :
  let w := with_performanceData [mkSample 3 true] (initial 800 600) in
  let r := run [click; animationFrame 1000 5 6; click] w in
  (exports_started (effects r) = 1%nat
   /\ buffer_resets (effects r) = 1%nat
   /\ generating (world_after r) = [bundle [mkSample 3 true]])
  /\ onClick (world_after r) = (tt, world_after r, [Get g_isProcessingClick]).
Proof.
  cbn zeta. set (w := with_performanceData _ _).
  destruct (export_guard w [animationFrame 1000 5 6]) as (_ & _ & _ & _ & H).
  destruct (H eq_refl eq_refl eq_refl) as (X & R & G & _ & B & _).
  cbn [app] in X, R, G, B.
  split; [repeat split; assumption|].
  destruct (export_guard (world_after (run [click; animationFrame 1000 5 6; click] w)) [])
    as (H1 & _).
  exact (H1 B).
Defined.

(** C10, as claimed, fails: the table exported from an empty buffer is the
    header line followed by a line feed. *)
Lemma export_of_empty_buffer_ends_with_newline :
  downloaded (world_after (run [click; zipGenerated] (initial 800 600)))
  = [("performance_data.zip",
      [("performance_data.csv", "DrawTime(ms),MouseMoved" ++ LF);
       ("statistics.txt", statsText (calculateStatistics []))])]%string
  /\ ("DrawTime(ms),MouseMoved" ++ LF <> "DrawTime(ms),MouseMoved")%string.
Proof.
  split; [vm_compute; reflexivity|].
  intros H. vm_compute in H. discriminate H.
Qed.

(** C10, amended. A click on an idle page with an empty buffer exports, to
    completion, a bundle whose table is the header line followed by one line
    feed, with no row; the buffer is empty afterwards. *)
Theorem export_of_empty_buffer (w : world) :
  guard_consistent w ->
  isProcessingClick w = false ->
  performanceData w = [] ->
  let r := run [click; zipGenerated] w in
  downloaded (world_after r)
  = downloaded w
    ++ [("performance_data.zip",
         [("performance_data.csv", String.append csvHeader LF);
          ("statistics.txt", statsText (calculateStatistics []))])]%string
  /\ performanceData (world_after r) = []
  /\ generating (world_after r) = []
  /\ isProcessingClick (world_after r) = false.
Proof.
  intros Hguard Hidle Hempty. cbn zeta.
  pose proof (idle_nothing_pending w Hguard Hidle) as Hnone.
  rewrite run_cons, world_after_pair. cbn [dispatch].
  rewrite (onClick_idle w Hidle), world_after_pair.
  rewrite run_cons, world_after_pair.
  rewrite (dispatch_zipGenerated _ (bundle (performanceData w)) []), world_after_pair.
  - rewrite Hempty. repeat split.
  - cbn [generating with_performanceData with_generating]. now rewrite Hnone.
Qed.

(** The export of the empty buffer of a page that has just loaded. *)
Lemma export_of_empty_buffer_witness :
  let r := run [click; zipGenerated] (initial 800 600) in
  downloaded (world_after r)
  = [("performance_data.zip",
      [("performance_data.csv", String.append csvHeader LF);
       ("statistics.txt", statsText (calculateStatistics []))])]%string
  /\ performanceData (world_after r) = []
  /\ generating (world_after r) = []
  /\ isProcessingClick (world_after r) = false.
Proof.
  exact (export_of_empty_buffer (initial 800 600) eq_refl eq_refl eq_refl).
Defined.

(** ** Numbers and their decimal texts *)


(** ** Decimal texts *)

Section DecimalText.
Local Open Scope string_scope.
Local Open Scope Z_scope.

Lemma all_chars_app (p : ascii -> bool) (a b : string) :
  all_chars p (a ++ b) = all_chars p a && all_chars p b.
Proof.
  induction a as [|c a IH]; cbn [append all_chars]; [reflexivity|].
  now rewrite IH, andb_assoc.
Qed.

Lemma all_chars_weaken (p p' : ascii -> bool) (s : string) :
  (forall c, p c = true -> p' c = true) ->
  all_chars p s = true -> all_chars p' s = true.
Proof.
  intros Hp. induction s as [|c s IH]; cbn [all_chars]; [reflexivity|].
  intros H. apply andb_true_iff in H. destruct H as [Hc Hs].
  now rewrite (Hp c Hc), IH.
Qed.

Lemma take_drop (n : nat) (s : string) : take n s ++ drop n s = s.
Proof.
  revert s. induction n as [|n IH]; intros [|c s]; cbn [take drop append];
    try reflexivity.
  now rewrite IH.
Qed.

Lemma all_chars_take (p : ascii -> bool) (n : nat) (s : string) :
  all_chars p s = true -> all_chars p (take n s) = true.
Proof.
  revert s. induction n as [|n IH]; intros [|c s]; cbn [take all_chars];
    try reflexivity.
  intros H. apply andb_true_iff in H. destruct H as [Hc Hs].
  now rewrite Hc, IH.
Qed.

Lemma all_chars_drop (p : ascii -> bool) (n : nat) (s : string) :
  all_chars p s = true -> all_chars p (drop n s) = true.
Proof.
  revert s. induction n as [|n IH]; intros [|c s]; cbn [drop all_chars];
    try (intros H; exact H).
  intros H. apply andb_true_iff in H. now apply IH.
Qed.

Lemma length_drop (n : nat) (s : string) :
  String.length (drop n s) = (String.length s - n)%nat.
Proof.
  revert s. induction n as [|n IH]; intros [|c s]; cbn [drop String.length];
    try reflexivity; try lia.
  apply IH.
Qed.

Lemma all_chars_zeros (n : nat) : all_chars is_digit (zeros n) = true.
Proof. induction n as [|n IH]; [reflexivity | exact IH]. Qed.

Lemma is_digit_digit (d : Z) : 0 <= d < 10 -> is_digit (digit d) = true.
Proof.
  intros H. unfold is_digit, digit.
  rewrite nat_ascii_embedding by lia.
  apply andb_true_iff. split; apply Nat.leb_le; lia.
Qed.

Lemma digit_value (d : Z) :
  0 <= d < 10 -> Z.of_nat (nat_of_ascii (digit d) - 48) = d.
Proof.
  intros H. unfold digit. rewrite nat_ascii_embedding by lia. lia.
Qed.

Lemma all_chars_digits_before (fuel : nat) :
  forall n acc, all_chars is_digit acc = true ->
  all_chars is_digit (digits_before fuel n acc) = true.
Proof.
  induction fuel as [|fuel IH]; intros n acc Hacc; cbn [digits_before].
  - exact Hacc.
  - assert (H : all_chars is_digit (String (digit (n mod 10)) acc) = true).
    { cbn [all_chars]. rewrite is_digit_digit, Hacc; [reflexivity|].
      apply Z.mod_pos_bound. lia. }
    destruct (n <? 10); [exact H|].
    apply IH. exact H.
Qed.

Lemma all_chars_decimal (n : Z) : all_chars is_digit (decimal n) = true.
Proof. now apply all_chars_digits_before. Qed.

Lemma digits_value_digits_before (fuel : nat) :
  forall n acc, 0 <= n < 2 ^ Z.of_nat fuel ->
  digits_value 0 (digits_before fuel n acc) = digits_value n acc.
Proof.
  induction fuel as [|fuel IH]; intros n acc Hn; cbn [digits_before].
  - change (2 ^ Z.of_nat 0) with 1 in Hn. now replace n with 0 by lia.
  - rewrite Nat2Z.inj_succ, Z.pow_succ_r in Hn by lia.
    destruct (n <? 10) eqn:E.
    + apply Z.ltb_lt in E. cbn [digits_value].
      rewrite digit_value by (apply Z.mod_pos_bound; lia).
      rewrite Z.mod_small by lia. reflexivity.
    + apply Z.ltb_ge in E. rewrite IH.
      * cbn [digits_value]. rewrite digit_value by (apply Z.mod_pos_bound; lia).
        f_equal. pose proof (Z.div_mod n 10). lia.
      * split; [apply Z.div_pos; lia|].
        apply Z.div_lt_upper_bound; lia.
Qed.

Lemma digits_value_decimal (n : Z) : 0 <= n -> digits_value 0 (decimal n) = n.
Proof.
  intros Hn. unfold decimal. rewrite digits_value_digits_before; [reflexivity|].
  split; [exact Hn|]. rewrite Nat2Z.inj_succ, Z2Nat.id by apply Z.log2_nonneg.
  destruct (Z.eq_dec n 0) as [->|Hz]; [reflexivity|].
  apply Z.log2_spec. lia.
Qed.

Lemma length_digits_before (fuel : nat) :
  forall n acc,
  (String.length acc <= String.length (digits_before fuel n acc))%nat.
Proof.
  induction fuel as [|fuel IH]; intros n acc; cbn [digits_before]; [lia|].
  destruct (n <? 10); [cbn [String.length]; lia|].
  etransitivity; [|apply IH]. cbn [String.length]. lia.
Qed.

Lemma ndigits_pos (n : Z) : 0 < ndigits n.
Proof.
  unfold ndigits, decimal. cbn [digits_before].
  destruct (n <? 10); [cbn [String.length]; lia|].
  pose proof (length_digits_before (Z.to_nat (Z.log2 n)) (n / 10)
                (String (digit (n mod 10)) "")) as H.
  cbn [String.length] in H. lia.
Qed.

Lemma decimal_nonempty (n : Z) : exists c r, decimal n = String c r.
Proof.
  pose proof (ndigits_pos n) as H. unfold ndigits in H.
  destruct (decimal n) as [|c r]; [cbn in H; lia|]. now exists c, r.
Qed.

Lemma digits_value_app (a b : string) (acc : Z) :
  digits_value acc (a ++ b) = digits_value (digits_value acc a) b.
Proof.
  revert acc. induction a as [|c a IH]; intros acc; cbn [append digits_value];
    [reflexivity | apply IH].
Qed.

Lemma digits_value_zeros (n : nat) (acc : Z) :
  digits_value acc (zeros n) = acc * 10 ^ Z.of_nat n.
Proof.
  revert acc. induction n as [|n IH]; intros acc; cbn [zeros digits_value].
  - change (10 ^ Z.of_nat 0) with 1. lia.
  - rewrite IH, Nat2Z.inj_succ, Z.pow_succ_r by lia.
    change (Z.of_nat (nat_of_ascii "0" - 48)) with 0. lia.
Qed.

Lemma span_digits_app (a rest : string) :
  all_chars is_digit a = true -> stops rest = true ->
  span_digits (a ++ rest) = (a, rest).
Proof.
  intros Ha Hr. induction a as [|c a IH]; cbn [append].
  - destruct rest as [|c r]; [reflexivity|].
    cbn [span_digits]. cbn [stops] in Hr.
    apply negb_true_iff in Hr. now rewrite Hr.
  - cbn [all_chars] in Ha. apply andb_true_iff in Ha. destruct Ha as [Hc Ha].
    cbn [span_digits]. now rewrite Hc, (IH Ha).
Qed.

Lemma span_digits_all (a : string) :
  all_chars is_digit a = true -> span_digits a = (a, "").
Proof.
  intros Ha. rewrite <- (span_digits_app a "" Ha eq_refl).
  f_equal. clear. induction a as [|c a IH]; cbn [append]; [reflexivity | now rewrite <- IH].
Qed.

(** The exponent [e+x] or [e-x] that [notation] writes is read back. *)
Lemma exponent_part_notation (x : Z) :
  exponent_part ("e" ++ (if x <? 0 then "-" else "+") ++ decimal (Z.abs x))
  = Some (x, "").
Proof.
  pose proof (span_digits_all (decimal (Z.abs x))
                (all_chars_decimal _)) as Hs.
  pose proof (digits_value_decimal (Z.abs x) (Z.abs_nonneg x)) as Hv.
  destruct (decimal_nonempty (Z.abs x)) as (c & r & E).
  destruct (x <? 0) eqn:Ex; cbn [append exponent_part Ascii.eqb Bool.eqb orb split_sign];
    rewrite Hs, E, <- E, Hv; do 2 f_equal.
  - apply Z.ltb_lt in Ex. lia.
  - apply Z.ltb_ge in Ex. lia.
Qed.
End DecimalText.


Section ExactDecimal.
Local Open Scope Z_scope.

Lemma digits2_pos_size (p : positive) : digits2_pos p = Pos.size p.
Proof. induction p; cbn [digits2_pos Pos.size]; congruence. Qed.

Lemma Zdigits2_log2 (p : positive) : Zpos (digits2_pos p) = Z.log2 (Zpos p) + 1.
Proof.
  rewrite digits2_pos_size. destruct p; cbn [Z.log2 Pos.size]; lia.
Qed.

Lemma Zdigits2_mul_pow2 (m : positive) (j : Z) :
  0 <= j -> Zdigits2 (Zpos m * 2 ^ j) = Zpos (digits2_pos m) + j.
Proof.
  intros Hj.
  assert (Hpos : 0 < Zpos m * 2 ^ j) by (apply Z.mul_pos_pos; [lia | apply Z.pow_pos_nonneg; lia]).
  destruct (Zpos m * 2 ^ j) as [|p|p] eqn:E; try lia.
  cbn [Zdigits2]. rewrite Zdigits2_log2, <- E, Z.log2_mul_pow2, Zdigits2_log2 by lia. lia.
Qed.

Lemma iter_pos_iter {A} (f : A -> A) (p : positive) (x : A) :
  iter_pos f p x = Pos.iter f x p.
Proof.
  revert x. induction p as [p IH|p IH|]; intros x; cbn [iter_pos Pos.iter].
  - rewrite !IH. now rewrite <- !Pos.iter_swap.
  - now rewrite !IH.
  - reflexivity.
Qed.

Lemma shr_exact (p : positive) :
  forall m : positive,
  Pos.iter shr_1 {| shr_m := Zpos m * 2 ^ Zpos p; shr_r := false; shr_s := false |} p
  = {| shr_m := Zpos m; shr_r := false; shr_s := false |}.
Proof.
  induction p as [|p IH] using Pos.peano_ind; intros m.
  - cbn [Pos.iter]. change (2 ^ 1) with 2. rewrite Z.mul_comm. reflexivity.
  - rewrite Pos.iter_succ.
    replace (Zpos m * 2 ^ Zpos (Pos.succ p)) with (Zpos (m~0) * 2 ^ Zpos p).
    + rewrite IH. reflexivity.
    + rewrite Pos2Z.inj_succ, Z.pow_succ_r by lia. lia.
Qed.

(** Rounding [m * 2^j] at exponent [e - j], for a binary64 [m * 2^e]. *)
Lemma binary_round_aux_exact (m : positive) (e j : Z) :
  0 <= j ->
  bounded prec emax m e = true ->
  binary_round_aux prec emax false (Zpos m * 2 ^ j) (e - j) loc_Exact
  = S754_finite false m e.
Proof.
  intros Hj Hb. unfold bounded in Hb. apply andb_true_iff in Hb.
  destruct Hb as [Hc He]. unfold canonical_mantissa in Hc.
  apply Z.eqb_eq in Hc. apply Z.leb_le in He.
  unfold binary_round_aux.
  assert (E1 : shr_fexp prec emax (Zpos m * 2 ^ j) (e - j) loc_Exact
               = ({| shr_m := Zpos m; shr_r := false; shr_s := false |}, e)).
  { unfold shr_fexp. rewrite Zdigits2_mul_pow2 by assumption.
    replace (Zpos (digits2_pos m) + j + (e - j)) with (Zpos (digits2_pos m) + e) by lia.
    rewrite Hc. replace (e - (e - j)) with j by lia.
    cbn [shr_record_of_loc]. unfold shr.
    destruct j as [|p|p]; [| |lia].
    - rewrite Z.mul_1_r. f_equal. lia.
    - rewrite iter_pos_iter, shr_exact. f_equal. lia. }
  rewrite E1. cbn [shr_m loc_of_shr_record round_nearest_even].
  assert (E2 : shr_fexp prec emax (Zpos m) e loc_Exact
               = ({| shr_m := Zpos m; shr_r := false; shr_s := false |}, e)).
  { unfold shr_fexp. cbn [Zdigits2]. rewrite Hc, Z.sub_diag. reflexivity. }
  rewrite E2. cbn [shr_m].
  apply Z.leb_le in He. now rewrite He.
Qed.

Lemma Zdigits2_mul_le (a b : positive) :
  Zpos (digits2_pos (a * b)) <= Zpos (digits2_pos a) + Zpos (digits2_pos b).
Proof.
  rewrite !Zdigits2_log2. rewrite Pos2Z.inj_mul.
  pose proof (Z.log2_mul_above (Zpos a) (Zpos b)). lia.
Qed.

Lemma new_location_exact (nb_steps : Z) : new_location nb_steps 0 = loc_Exact.
Proof.
  unfold new_location, new_location_even, new_location_odd.
  destruct (Z.even nb_steps); reflexivity.
Qed.

(** The quotient of [m * 5^k] by [10^k] is [m * 2^(-k)], exactly. *)
Lemma SFdiv_core_binary_exact (m : positive) (e : Z) :
  e < 0 ->
  bounded prec emax m e = true ->
  exists j, 0 <= j
    /\ SFdiv_core_binary prec emax (Zpos m * 5 ^ (- e)) 0 (10 ^ (- e)) 0
       = (Zpos m * 2 ^ j, e - j, loc_Exact).
Proof.
  intros He Hb. unfold bounded in Hb. apply andb_true_iff in Hb.
  destruct Hb as [Hc _]. unfold canonical_mantissa in Hc. apply Z.eqb_eq in Hc.
  set (k := - e) in *. assert (Hk : 0 < k) by lia.
  assert (H5 : 0 < 5 ^ k) by (apply Z.pow_pos_nonneg; lia).
  destruct (5 ^ k) as [|p5|p5] eqn:E5; try lia.
  assert (E10 : 10 ^ k = Zpos p5 * 2 ^ k).
  { change 10 with (5 * 2). now rewrite Z.pow_mul_l, E5. }
  unfold SFdiv_core_binary.
  rewrite E10, Zdigits2_mul_pow2 by lia.
  change (Zpos m * Zpos p5) with (Zpos (m * p5)). cbn [Zdigits2].
  set (d1 := Zpos (digits2_pos (m * p5))).
  set (d2 := Zpos (digits2_pos p5) + k).
  set (e' := Z.min (fexp prec emax (d1 + 0 - (d2 + 0))) (0 - 0)).
  assert (He' : e' <= e).
  { pose proof (Zdigits2_mul_le m p5) as Hd. fold d1 in Hd.
    unfold e', d2. revert Hc. unfold fexp, k. lia. }
  replace (0 - 0 - e') with (- e') by lia.
  destruct (- e') as [|sft|sft] eqn:Es; try lia.
  rewrite Z.shiftl_mul_pow2 by lia.
  exists (Zpos sft - k). split; [lia|].
  assert (Em : Zpos (m * p5) * 2 ^ Zpos sft
               = (Zpos m * 2 ^ (Zpos sft - k)) * (Zpos p5 * 2 ^ k)).
  { replace (Zpos sft) with ((Zpos sft - k) + k) at 1 by lia.
    rewrite Z.pow_add_r by lia. rewrite Pos2Z.inj_mul. ring. }
  rewrite Em.
  assert (Hd : 0 < Zpos p5 * 2 ^ k) by (apply Z.mul_pos_pos; [lia | apply Z.pow_pos_nonneg; lia]).
  pose proof (Z.div_mul (Zpos m * 2 ^ (Zpos sft - k)) (Zpos p5 * 2 ^ k)) as Hq.
  pose proof (Z.mod_mul (Zpos m * 2 ^ (Zpos sft - k)) (Zpos p5 * 2 ^ k)) as Hr.
  unfold Z.div, Z.modulo in Hq, Hr.
  destruct (Z.div_eucl _ _) as [q r].
  rewrite Hq, Hr by lia. rewrite new_location_exact.
  f_equal. f_equal. unfold k. lia.
Qed.

(** The full expansion of a binary64 reads back as that binary64. *)
Lemma exact_decimal_reads (m : positive) (e : Z) :
  bounded prec emax m e = true ->
  reads_as m e (fst (exact_decimal m e))
           (snd (exact_decimal m e) - ndigits (fst (exact_decimal m e))) = true.
Proof.
  intros Hb. unfold exact_decimal. cbn [fst snd].
  match goal with |- reads_as _ _ ?s ?q = true =>
    replace q with (Z.min e 0) by lia end.
  assert (Hfin : forall s q, SF_of_decimal s q = S754_finite false m e ->
                             reads_as m e s q = true).
  { intros s q E. unfold reads_as. rewrite E.
    now rewrite Pos.eqb_refl, Z.eqb_refl. }
  apply Hfin. unfold SF_of_decimal.
  destruct (0 <=? e) eqn:Ee.
  - apply Z.leb_le in Ee. rewrite Z.min_r by lia.
    assert (Hs : 0 < Zpos m * 2 ^ e)
      by (apply Z.mul_pos_pos; [lia | apply Z.pow_pos_nonneg; lia]).
    destruct (Zpos m * 2 ^ e <=? 0) eqn:E0; [apply Z.leb_le in E0; lia|].
    cbn [Z.leb Z.compare]. rewrite Z.pow_0_r, Z.mul_1_r.
    destruct (Zpos m * 2 ^ e) as [|P|P] eqn:EP; try lia.
    cbn [binary_normalize]. unfold binary_round.
    assert (Hf : fexp prec emax (Zpos (digits2_pos P) + 0) = e).
    { pose proof (Zdigits2_mul_pow2 m e Ee) as Hd. rewrite EP in Hd.
      cbn [Zdigits2] in Hd. rewrite Z.add_0_r, Hd.
      unfold bounded in Hb. apply andb_true_iff in Hb. destruct Hb as [Hc _].
      now apply Z.eqb_eq in Hc. }
    rewrite Hf. unfold shl_align.
    pose proof (binary_round_aux_exact m e e Ee Hb) as H.
    rewrite Z.sub_diag, EP in H.
    destruct (e - 0) as [|d|d] eqn:Ed; try lia; exact H.
  - apply Z.leb_gt in Ee. rewrite Z.min_l by lia.
    assert (Hs : 0 < Zpos m * 5 ^ (- e))
      by (apply Z.mul_pos_pos; [lia | apply Z.pow_pos_nonneg; lia]).
    assert (H10 : 0 < 10 ^ (- e)) by (apply Z.pow_pos_nonneg; lia).
    destruct (Zpos m * 5 ^ (- e) <=? 0) eqn:E0; [apply Z.leb_le in E0; lia|].
    apply Z.leb_gt in Ee. rewrite Ee. apply Z.leb_gt in Ee.
    unfold SFdiv. rewrite !Z2Pos.id by lia.
    destruct (SFdiv_core_binary_exact m e Ee Hb) as (j & Hj & E).
    rewrite E. cbn [xorb]. now apply binary_round_aux_exact.
Qed.
End ExactDecimal.


Section Literal.
Local Open Scope string_scope.
Local Open Scope Z_scope.

Lemma exponent_or_end_stops (tail : string) :
  exponent_or_end tail = true -> stops tail = true.
Proof.
  destruct tail as [|c t]; [reflexivity|]. cbn [exponent_or_end stops].
  intros H. apply Ascii.eqb_eq in H. now subst c.
Qed.

Lemma append_empty_r (s : string) : s ++ "" = s.
Proof. induction s as [|c s IH]; cbn [append]; [reflexivity | now rewrite IH]. Qed.

Lemma decimal_literal_integer (ip tail : string) (x : Z) :
  all_chars is_digit ip = true ->
  ip <> "" ->
  exponent_or_end tail = true ->
  exponent_part tail = Some (x, "") ->
  decimal_literal (ip ++ tail) = Some (digits_value 0 ip, x).
Proof.
  intros Hd Hne Ht Hx. unfold decimal_literal.
  rewrite (span_digits_app _ _ Hd (exponent_or_end_stops _ Ht)).
  assert (E : match tail with
              | String c0 r0 => if Ascii.eqb c0 "." then span_digits r0 else ("", tail)
              | EmptyString => ("", tail)
              end = ("", tail)).
  { destruct tail as [|c0 t]; [reflexivity|]. cbn [exponent_or_end] in Ht.
    apply Ascii.eqb_eq in Ht. now subst c0. }
  rewrite E, append_empty_r, Hx.
  destruct ip as [|c r]; [contradiction|].
  cbn [String.length]. do 2 f_equal. lia.
Qed.

Lemma decimal_literal_fraction (ip fp tail : string) (x : Z) :
  all_chars is_digit ip = true ->
  all_chars is_digit fp = true ->
  ip <> "" ->
  exponent_or_end tail = true ->
  exponent_part tail = Some (x, "") ->
  decimal_literal (ip ++ "." ++ fp ++ tail)
  = Some (digits_value 0 (ip ++ fp), x - Z.of_nat (String.length fp)).
Proof.
  intros Hd Hf Hne Ht Hx. unfold decimal_literal.
  rewrite (span_digits_app _ ("." ++ fp ++ tail) Hd eq_refl).
  cbn [append Ascii.eqb Bool.eqb].
  rewrite (span_digits_app _ _ Hf (exponent_or_end_stops _ Ht)), Hx.
  destruct ip as [|c r]; [contradiction|]. reflexivity.
Qed.

Lemma length_append (a b : string) :
  String.length (a ++ b) = (String.length a + String.length b)%nat.
Proof.
  induction a as [|c a IH]; cbn [append String.length]; [reflexivity | now rewrite IH].
Qed.

Lemma length_zeros (j : nat) : String.length (zeros j) = j.
Proof. induction j as [|j IH]; cbn [zeros String.length]; [reflexivity | now rewrite IH]. Qed.

(** The text of [notation] is a literal of the same value. *)
Lemma decimal_literal_notation (s n : Z) :
  0 < s ->
  exists s' q',
    decimal_literal (notation s n) = Some (s', q')
    /\ SF_of_decimal s' q' = SF_of_decimal s (n - ndigits s).
Proof.
  intros Hs. unfold notation.
  pose proof (all_chars_decimal s) as Hd.
  pose proof (digits_value_decimal s (Z.lt_le_incl _ _ Hs)) as Hv.
  pose proof (ndigits_pos s) as Hk.
  unfold ndigits in *. set (ds := decimal s) in *.
  set (k := Z.of_nat (String.length ds)) in *.
  assert (Hne : ds <> "").
  { intros E. unfold k in Hk. rewrite E in Hk. cbn in Hk. lia. }
  destruct ((-5 <=? n) && (n <=? 21)) eqn:Hrange.
  - destruct (k <=? n) eqn:Hkn; [|destruct (0 <? n) eqn:Hn].
    + (* digits and zeros *)
      apply Z.leb_le in Hkn.
      exists (s * 10 ^ (n - k)), 0. split.
      * rewrite <- (append_empty_r (ds ++ zeros _)).
        rewrite (decimal_literal_integer _ "" 0); try reflexivity.
        -- rewrite digits_value_app, digits_value_zeros, Hv.
           now rewrite Z2Nat.id by lia.
        -- now rewrite all_chars_app, Hd, all_chars_zeros.
        -- destruct ds; [contradiction | discriminate].
      * unfold SF_of_decimal.
        assert (H10 : 0 < 10 ^ (n - k)) by (apply Z.pow_pos_nonneg; lia).
        destruct (s <=? 0) eqn:E0; [apply Z.leb_le in E0; lia|].
        destruct (s * 10 ^ (n - k) <=? 0) eqn:E1; [apply Z.leb_le in E1; nia|].
        destruct (0 <=? n - k) eqn:E2; [|apply Z.leb_gt in E2; lia].
        cbn [Z.leb Z.compare]. now rewrite Z.pow_0_r, Z.mul_1_r.
    + (* digits, point, digits *)
      apply Z.leb_gt in Hkn. apply Z.ltb_lt in Hn.
      exists s, (n - k). split; [|reflexivity].
      rewrite <- (append_empty_r (drop _ ds)).
      rewrite (decimal_literal_fraction _ _ "" 0); try reflexivity.
      -- rewrite take_drop, Hv, length_drop. do 2 f_equal. unfold k. lia.
      -- now apply all_chars_take.
      -- now apply all_chars_drop.
      -- destruct ds as [|c r]; [contradiction|].
         destruct (Z.to_nat n) eqn:En; [lia | discriminate].
    + (* zero, point, zeros, digits *)
      apply Z.ltb_ge in Hn.
      exists s, (n - k). split; [|reflexivity].
      change ("0." ++ zeros (Z.to_nat (- n)) ++ ds)
        with ("0" ++ "." ++ (zeros (Z.to_nat (- n)) ++ ds)).
      rewrite <- (append_empty_r (zeros _ ++ ds)).
      rewrite (decimal_literal_fraction _ _ "" 0); try reflexivity.
      -- rewrite length_append, length_zeros. do 2 f_equal.
         ++ cbn [append digits_value].
            change (10 * 0 + Z.of_nat (nat_of_ascii "0" - 48)) with 0.
            now rewrite digits_value_app, digits_value_zeros, Z.mul_0_l.
         ++ unfold k. lia.
      -- now rewrite all_chars_app, Hd, all_chars_zeros.
      -- discriminate.
  - pose proof (exponent_part_notation (n - 1)) as Hx.
    set (tail := "e" ++ _) in *.
    destruct (k =? 1) eqn:Hk1.
    + exists s, (n - k). split; [|reflexivity].
      apply Z.eqb_eq in Hk1.
      rewrite (decimal_literal_integer _ tail (n - 1) Hd Hne eq_refl Hx).
      rewrite Hv. do 2 f_equal. lia.
    + exists s, (n - k). split; [|reflexivity].
      rewrite (decimal_literal_fraction _ _ tail (n - 1)); try reflexivity.
      -- rewrite take_drop, Hv, length_drop. do 2 f_equal. unfold k. lia.
      -- now apply all_chars_take.
      -- now apply all_chars_drop.
      -- destruct ds as [|c r]; [contradiction | discriminate].
      -- exact Hx.
Qed.
End Literal.


Section ReadBack.
Local Open Scope string_scope.
Local Open Scope Z_scope.

Lemma reads_as_finite (m : positive) (e s q : Z) :
  reads_as m e s q = true -> SF_of_decimal s q = S754_finite false m e.
Proof.
  unfold reads_as. destruct (SF_of_decimal s q) as [| | |[] m' e']; try discriminate.
  intros H. apply andb_true_iff in H. destruct H as [Hm He].
  apply Pos.eqb_eq in Hm. apply Z.eqb_eq in He. now subst.
Qed.

Lemma reads_as_pos (m : positive) (e s q : Z) :
  reads_as m e s q = true -> 0 < s.
Proof.
  unfold reads_as, SF_of_decimal.
  destruct (s <=? 0) eqn:E; [discriminate|]. apply Z.leb_gt in E. lia.
Qed.

Lemma fits_reads (m : positive) (e k s n : Z) :
  fits m e k (s, n) = true -> reads_as m e s (n - ndigits s) = true.
Proof.
  unfold fits. intros H. apply andb_true_iff in H. destruct H as [Hk Hr].
  apply Z.eqb_eq in Hk. now rewrite Hk.
Qed.

Lemma candidate_reads (m : positive) (e n0 k s n : Z) :
  candidate m e n0 k = Some (s, n) -> reads_as m e s (n - ndigits s) = true.
Proof.
  unfold candidate. destruct (fraction m e) as [num den].
  destruct (scaled num den n0 k) as [[lo r] b].
  set (above := if lo + 1 <? 10 ^ k then _ else _).
  destruct (fits m e k (lo, n0)) eqn:Hlo;
    destruct (fits m e k above) eqn:Hhi; cbn [andb]; try discriminate.
  - intros [= H].
    match type of H with (if ?c then _ else _) = _ => destruct c end.
    + injection H as <- <-. eauto using fits_reads.
    + rewrite H in Hhi. eauto using fits_reads.
  - intros [= <- <-]. eauto using fits_reads.
  - intros [= H]. rewrite H in Hhi. eauto using fits_reads.
Qed.

Lemma shortest_from_reads (m : positive) (e n0 : Z) (fuel : nat) :
  bounded prec emax m e = true ->
  forall k,
  reads_as m e (fst (shortest_from fuel m e n0 k))
           (snd (shortest_from fuel m e n0 k)
            - ndigits (fst (shortest_from fuel m e n0 k))) = true.
Proof.
  intros Hb. induction fuel as [|fuel IH]; intros k; cbn [shortest_from];
    destruct (candidate m e n0 k) as [[s n]|] eqn:E.
  - exact (candidate_reads _ _ _ _ _ _ E).
  - now apply exact_decimal_reads.
  - exact (candidate_reads _ _ _ _ _ _ E).
  - apply IH.
Qed.

Lemma shortest_reads (m : positive) (e : Z) :
  bounded prec emax m e = true ->
  reads_as m e (fst (shortest m e))
           (snd (shortest m e) - ndigits (fst (shortest m e))) = true.
Proof.
  intros Hb. unfold shortest. destruct (fraction m e) as [num den].
  now apply shortest_from_reads.
Qed.

(** A literal starts with a digit or a point: it has no sign and is not
    [Infinity]. *)
Lemma decimal_literal_unsigned (body : string) (v : Z * Z) :
  decimal_literal body = Some v ->
  split_sign body = (false, body) /\ String.eqb body "Infinity" = false.
Proof.
  destruct body as [|c r]; [discriminate|].
  unfold decimal_literal. cbn [span_digits split_sign String.eqb].
  destruct (is_digit c) eqn:Hc.
  - intros _.
    assert (H : Ascii.eqb c "-" = false /\ Ascii.eqb c "+" = false
                /\ Ascii.eqb c "I" = false).
    { repeat split; apply Ascii.eqb_neq; intros ->; discriminate Hc. }
    destruct H as (-> & -> & ->). now split.
  - destruct (Ascii.eqb c ".") eqn:Hp.
    + apply Ascii.eqb_eq in Hp. subst c. now split.
    + cbn [append]. discriminate.
Qed.

(** Every number but [-0] is read back from its text. *)
Theorem readNumber_toString (x : number) :
  x <> neg_zero -> readNumber (Number_toString x) = x.
Proof.
  intros Hx. rewrite <- (SF2Prim_Prim2SF x) at 2.
  pose proof (Prim2SF_valid x) as Hvalid.
  unfold Number_toString.
  destruct (Prim2SF x) as [sg|sg| |sg m e] eqn:E.
  - destruct sg; [|reflexivity].
    exfalso. apply Hx. rewrite <- (SF2Prim_Prim2SF x), E. reflexivity.
  - destruct sg; reflexivity.
  - reflexivity.
  - cbn [valid_binary] in Hvalid.
    pose proof (shortest_reads m e Hvalid) as Hr.
    destruct (shortest m e) as [s n]. cbn [fst snd] in Hr.
    destruct (decimal_literal_notation s n (reads_as_pos _ _ _ _ Hr))
      as (s' & q' & Hlit & Hval).
    destruct (decimal_literal_unsigned _ _ Hlit) as [Hsign Hinf].
    rewrite (reads_as_finite _ _ _ _ Hr) in Hval.
    unfold readNumber.
    destruct sg; cbn [append split_sign Ascii.eqb Bool.eqb].
    + now rewrite Hinf, Hlit, Hval.
    + now rewrite Hsign, Hinf, Hlit, Hval.
Qed.
End ReadBack.

(** ** The exported table *)

Section Table.
Local Open Scope string_scope.

Lemma append_assoc (a b c : string) : (a ++ b) ++ c = a ++ (b ++ c).
Proof.
  induction a as [|x a IH]; cbn [append]; [reflexivity | now rewrite IH].
Qed.

Lemma is_digit_plain (c : ascii) : is_digit c = true -> plain c = true.
Proof.
  intros H. unfold plain, differs.
  assert (Ascii.eqb c "," = false /\ Ascii.eqb c "010" = false) as [-> ->];
    [|reflexivity].
  split; apply Ascii.eqb_neq; intros ->; discriminate H.
Qed.

Lemma plain_digits (s : string) :
  all_chars is_digit s = true -> all_chars plain s = true.
Proof. apply all_chars_weaken, is_digit_plain. Qed.

Lemma plain_decimal (n : Z) : all_chars plain (decimal n) = true.
Proof. apply plain_digits, all_chars_decimal. Qed.

Lemma plain_notation (s n : Z) : all_chars plain (notation s n) = true.
Proof.
  unfold notation.
  pose proof (plain_decimal s) as Hd.
  pose proof (plain_digits _ (all_chars_zeros (Z.to_nat (n - ndigits s)))) as Hz.
  pose proof (plain_digits _ (all_chars_zeros (Z.to_nat (- n)))) as Hz'.
  pose proof (plain_decimal (Z.abs (n - 1))) as He.
  repeat match goal with
         | |- context [if ?c then _ else _] => destruct c
         end;
    repeat (rewrite all_chars_app || cbn [all_chars append]);
    rewrite ?Hd, ?Hz, ?Hz', ?He, ?(all_chars_take plain _ _ Hd),
      ?(all_chars_drop plain _ _ Hd);
    reflexivity.
Qed.

(** The text of a number holds no comma and no line feed. *)
Lemma plain_Number_toString (x : number) :
  all_chars plain (Number_toString x) = true.
Proof.
  unfold Number_toString.
  destruct (Prim2SF x) as [sg|[]| |[] m e]; try reflexivity;
    destruct (shortest m e) as [s n]; cbn [append all_chars];
    now rewrite plain_notation.
Qed.

Lemma plain_differs_comma (s : string) :
  all_chars plain s = true -> all_chars (differs ",") s = true.
Proof.
  apply all_chars_weaken. intros c H. unfold plain in H.
  now apply andb_true_iff in H.
Qed.



Lemma split_fields (sep : ascii) (field rest : string) :
  all_chars (differs sep) field = true ->
  split sep (field ++ String sep rest) = field :: split sep rest.
Proof.
  induction field as [|c s IH]; cbn [all_chars split append].
  - intros _. now rewrite Ascii.eqb_refl.
  - intros H. apply andb_true_iff in H. destruct H as [Hc Hs].
    unfold differs in Hc. apply negb_true_iff in Hc. now rewrite Hc, (IH Hs).
Qed.






Lemma parseRow_csvRow (row : sample) :
  readNumber (Number_toString (ms row)) = ms row ->
  parseRow (csvRow row) = Some row.
Proof.
  intros H. unfold parseRow, csvRow.
  change ("," ++ ?s) with (String "," s).
  rewrite split_fields by apply plain_differs_comma, plain_Number_toString.
  destruct row as [duration moved]. cbn [ms mouseMoved] in *.
  destruct moved; cbn [Boolean_toString split Ascii.eqb Bool.eqb parseBoolean String.eqb];
    rewrite H; reflexivity.
Qed.

Lemma Object_is_neg_zero (x : number) :
  Object_is x neg_zero = false -> x <> neg_zero.
Proof. intros H ->. discriminate H. Qed.





End Table.

(* ===================================================================== *)
(** * Part III: further properties of the page *)
(* ===================================================================== *)

(** ** The event loop, event by event *)

Lemma dispatch_zipGenerated_idle (w : world) :
  generating w = [] -> dispatch zipGenerated w = (tt, w, []).
Proof. intros H. cbn [dispatch]. now rewrite H. Qed.

(** What an event does to the flag is what [appended] assumes. *)
Lemma appended_step (e : event) (w : world) (events : list event) :
  appended (mouseMovedThisFrame w) (e :: events)
  = appended (mouseMovedThisFrame w) [e]
    ++ appended (mouseMovedThisFrame (world_after (dispatch e w))) events.
Proof.
  destruct e as [| |iw ih|time start end_|]; cbn [appended app].
  - reflexivity.
  - change (dispatch click w) with (onClick w).
    destruct (isProcessingClick w) eqn:B.
    + now rewrite (onClick_busy w B).
    + now rewrite (onClick_idle w B).
  - reflexivity.
  - change (dispatch (animationFrame time start end_) w)
      with (renderLoop time start end_ w).
    now rewrite renderLoop_run.
  - destruct (generating w) as [|c p] eqn:G.
    + now rewrite (dispatch_zipGenerated_idle w G).
    + now rewrite (dispatch_zipGenerated w c p G).
Qed.

(** An event other than a click: the buffer grows by what [appended] says,
    no export starts, the buffer is not reset. *)
Lemma dispatch_no_click (e : event) (w : world) :
  no_click [e] = true ->
  performanceData (world_after (dispatch e w))
  = performanceData w ++ appended (mouseMovedThisFrame w) [e]
  /\ exports_started (effects (dispatch e w)) = 0%nat
  /\ buffer_resets (effects (dispatch e w)) = 0%nat.
Proof.
  intros He. destruct e as [| |iw ih|time start end_|]; cbn [appended].
  - cbn. now rewrite app_nil_r.
  - discriminate He.
  - cbn. now rewrite app_nil_r.
  - cbn [dispatch]. rewrite renderLoop_run, world_after_pair, effects_pair.
    rewrite exports_started_app, buffer_resets_app.
    destruct (ToBoolean (lastTime w)); repeat split.
  - destruct (generating w) as [|c p] eqn:G.
    + rewrite (dispatch_zipGenerated_idle w G). cbn. now rewrite app_nil_r.
    + rewrite (dispatch_zipGenerated w c p G). cbn. now rewrite app_nil_r.
Qed.

Lemma length_appended (moved : bool) (events : list event) :
  List.length (appended moved events) = count_frames events.
Proof.
  revert moved. induction events as [|e events IH]; intros moved; [reflexivity|].
  destruct e; cbn [appended]; try apply IH.
  unfold count_frames. cbn [filter List.length]. f_equal. apply IH.
Qed.

Lemma run_no_click (events : list event) :
  forall w : world,
  no_click events = true ->
  performanceData (world_after (run events w))
  = performanceData w ++ appended (mouseMovedThisFrame w) events
  /\ exports_started (effects (run events w)) = 0%nat
  /\ buffer_resets (effects (run events w)) = 0%nat.
Proof.
  induction events as [|e events IH]; intros w H.
  - cbn. now rewrite app_nil_r.
  - cbn [no_click forallb] in H. apply andb_true_iff in H. destruct H as [He H].
    assert (He' : no_click [e] = true) by (cbn [no_click forallb]; now rewrite He).
    destruct (dispatch_no_click e w He') as (P & X & R).
    destruct (IH (world_after (dispatch e w)) H) as (P' & X' & R').
    rewrite run_cons, world_after_pair, effects_pair.
    rewrite exports_started_app, buffer_resets_app, X, R, X', R', P', P.
    rewrite <- app_assoc, <- appended_step. repeat split.
Qed.

(** X1. Whatever the state of the page, events other than clicks leave the
    samples of the buffer in place and append one sample per frame, in the
    order of the frames, tagged by whether the mouse moved since the frame
    before; they start no export and do not reset the buffer. *)
Theorem frames_only_append (events : list event) (w : world) :
  no_click events = true ->
  let r := run events w in
  performanceData (world_after r)
  = performanceData w ++ appended (mouseMovedThisFrame w) events
  /\ List.length (performanceData (world_after r))
     = (List.length (performanceData w) + count_frames events)%nat
  /\ exports_started (effects r) = 0%nat
  /\ buffer_resets (effects r) = 0%nat.
Proof.
  intros H. cbn zeta. destruct (run_no_click events w H) as (P & X & R).
  rewrite P, length_app, length_appended. repeat split; assumption.
Qed.

Lemma frames_only_append_witness :
  let w := with_performanceData [mkSample 3 true] (initial 800 600) in
  let r := run [mousemove; animationFrame 1000 5 6; resize 640 480;
                zipGenerated; animationFrame 1016 7 9] w in
  performanceData (world_after r)
  = [mkSample 3 true; mkSample (6 - 5) true; mkSample (9 - 7) false]
  /\ exports_started (effects r) = 0%nat.
Proof.
  cbn zeta.
  destruct (frames_only_append
              [mousemove; animationFrame 1000 5 6; resize 640 480;
               zipGenerated; animationFrame 1016 7 9]
              (with_performanceData [mkSample 3 true] (initial 800 600)) eq_refl)
    as (P & _ & X & _).
  split; [exact P | exact X].
Defined.

Lemma appended_moves (n : nat) (moved : bool) (events : list event) :
  appended moved (repeat mousemove n ++ events)
  = appended (moved || negb (Nat.eqb n 0)) events.
Proof.
  revert moved. induction n as [|n IH]; intros moved; cbn [repeat app appended Nat.eqb negb].
  - now rewrite orb_false_r.
  - rewrite IH. cbn [orb]. now rewrite orb_true_r.
Qed.

Lemma no_click_moves (n : nat) (events : list event) :
  no_click (repeat mousemove n ++ events) = no_click events.
Proof. induction n as [|n IH]; [reflexivity | exact IH]. Qed.

(** X2. Of two successive frames, the sample of the second is tagged as
    moved exactly when at least one mouse move arrived between them,
    however many did and whatever the flag was before the first; the flag
    is clear after the second. *)
Theorem mousemove_tags_next_frame (w : world) (n : nat)
    (time1 start1 end1 time2 start2 end2 : number) :
  let r := run (animationFrame time1 start1 end1
                :: repeat mousemove n ++ [animationFrame time2 start2 end2]) w in
  performanceData (world_after r)
  = performanceData w
    ++ [ {| ms := (end1 - start1)%float; mouseMoved := mouseMovedThisFrame w |};
         {| ms := (end2 - start2)%float; mouseMoved := negb (Nat.eqb n 0) |} ]
  /\ mouseMovedThisFrame (world_after r) = false.
Proof.
  cbn zeta. split.
  - destruct (run_no_click (animationFrame time1 start1 end1
                            :: repeat mousemove n ++ [animationFrame time2 start2 end2]) w)
      as (P & _).
    + cbn [no_click forallb]. apply (no_click_moves n [animationFrame time2 start2 end2]).
    + rewrite P. cbn [appended]. now rewrite appended_moves.
  - rewrite run_cons, world_after_pair, run_app, world_after_pair.
    rewrite run_cons, world_after_pair.
    cbn [dispatch run ret world_after fst snd].
    now rewrite (renderLoop_run _ time2).
Qed.

(** ** Invariants of a page *)

(** X3. A resize changes the size of the canvas and nothing else; of
    several resizes the last one counts, and the next frame aligns the
    animation to that size. *)
Theorem resize_sets_alignment (w : world) (width height width' height' : N)
    (time start end_ : number) :
  let resized := world_after (run [resize width' height'; resize width height] w) in
  resized = with_canvas width height w
  /\ nth_error (calls_of (effects (renderLoop time start end_ resized))) 4
     = Some (renderer_align width height)
  /\ count_calls (fun c => match c with renderer_align _ _ => true | _ => false end)
                 (effects (renderLoop time start end_ resized)) = 1%nat.
Proof.
  cbn zeta. split; [reflexivity|].
  unfold count_calls. rewrite renderLoop_calls. split; reflexivity.
Qed.

(** X4. In every state of a page, the guard is set exactly
    while one bundle is being packaged; two are never being packaged. *)
Theorem one_export_in_flight (innerWidth innerHeight : N) (events : list event) :
  let w := world_after (run events (initial innerWidth innerHeight)) in
  List.length (generating w) = if isProcessingClick w then 1%nat else 0%nat.
Proof.
  cbn zeta.
  pose proof (reachable_guard_consistent innerWidth innerHeight events) as H.
  unfold guard_consistent in H.
  destruct (isProcessingClick _).
  - destruct H as [c ->]. reflexivity.
  - now rewrite H.
Qed.

Lemma dispatch_exports (e : event) (w : world) :
  (exports_started (effects (dispatch e w))
   + List.length (downloaded w) + List.length (generating w))%nat
  = (List.length (downloaded (world_after (dispatch e w)))
     + List.length (generating (world_after (dispatch e w))))%nat.
Proof.
  destruct e as [| |iw ih|time start end_|].
  - reflexivity.
  - change (dispatch click w) with (onClick w).
    destruct (isProcessingClick w) eqn:B.
    + now rewrite (onClick_busy w B).
    + rewrite (onClick_idle w B), world_after_pair, effects_pair.
      rewrite !exports_started_app, exports_started_console.
      cbn [generating downloaded with_performanceData with_generating
           with_isProcessingClick].
      rewrite length_app. cbn. lia.
  - reflexivity.
  - change (dispatch (animationFrame time start end_) w)
      with (renderLoop time start end_ w).
    rewrite renderLoop_run, world_after_pair, effects_pair, exports_started_app.
    destruct (ToBoolean (lastTime w)); reflexivity.
  - destruct (generating w) as [|c p] eqn:G.
    + rewrite (dispatch_zipGenerated_idle w G), world_after_pair, effects_pair, G.
      reflexivity.
    + rewrite (dispatch_zipGenerated w c p G), world_after_pair, effects_pair.
      cbn [generating downloaded with_isProcessingClick with_downloaded with_generating].
      rewrite length_app. cbn. lia.
Qed.

Lemma run_exports (events : list event) :
  forall w : world,
  (exports_started (effects (run events w))
   + List.length (downloaded w) + List.length (generating w))%nat
  = (List.length (downloaded (world_after (run events w)))
     + List.length (generating (world_after (run events w))))%nat.
Proof.
  induction events as [|e events IH]; intros w; [reflexivity|].
  rewrite run_cons, world_after_pair, effects_pair, exports_started_app.
  rewrite <- IH. pose proof (dispatch_exports e w). lia.
Qed.

(** X5. Every export that a page has started is either
    downloaded or still being packaged; none is dropped, none is delivered
    twice. *)
Theorem exports_accounted (innerWidth innerHeight : N) (events : list event) :
  let r := run events (initial innerWidth innerHeight) in
  exports_started (effects r)
  = (List.length (downloaded (world_after r))
     + List.length (generating (world_after r)))%nat.
Proof.
  cbn zeta. rewrite <- run_exports. cbn [initial downloaded generating List.length]. lia.
Qed.

Lemma accounted_step (e : event) (w : world) (history : list sample) :
  accounted w history ->
  accounted (world_after (dispatch e w))
            (history ++ appended (mouseMovedThisFrame w) [e]).
Proof.
  intros (exported & pending & D & G & H).
  destruct e as [| |iw ih|time start end_|]; cbn [appended].
  - exists exported, pending. rewrite app_nil_r. now repeat split.
  - change (dispatch click w) with (onClick w). rewrite app_nil_r.
    destruct (isProcessingClick w) eqn:B.
    + rewrite (onClick_busy w B), world_after_pair.
      exists exported, pending. now repeat split.
    + rewrite (onClick_idle w B), world_after_pair.
      exists exported, (pending ++ [performanceData w]).
      cbn [generating downloaded performanceData with_performanceData with_generating
           with_isProcessingClick].
      rewrite G, map_app, concat_app. cbn [map List.concat].
      rewrite !app_nil_r. now repeat split.
  - exists exported, pending. rewrite app_nil_r. now repeat split.
  - change (dispatch (animationFrame time start end_) w)
      with (renderLoop time start end_ w).
    rewrite renderLoop_run, world_after_pair.
    exists exported, pending.
    cbn [generating downloaded performanceData with_performanceData
         with_mouseMovedThisFrame with_lastTime].
    rewrite <- H, <- !app_assoc. now repeat split.
  - rewrite app_nil_r. destruct (generating w) as [|c p] eqn:Gw.
    + rewrite (dispatch_zipGenerated_idle w Gw), world_after_pair.
      exists exported, pending. rewrite Gw. now repeat split.
    + rewrite (dispatch_zipGenerated w c p Gw), world_after_pair.
      destruct pending as [|d pending]; [discriminate G|].
      cbn [map] in G. injection G as -> ->.
      exists (exported ++ [d]), pending.
      cbn [generating downloaded performanceData with_isProcessingClick
           with_downloaded with_generating].
      rewrite D, map_app, concat_app. cbn [map List.concat] in *.
      rewrite app_nil_r, <- H, <- !app_assoc. now repeat split.
Qed.

Lemma accounted_run (events : list event) :
  forall (w : world) (history : list sample),
  accounted w history ->
  accounted (world_after (run events w))
            (history ++ appended (mouseMovedThisFrame w) events).
Proof.
  induction events as [|e events IH]; intros w history H.
  - cbn [appended]. now rewrite app_nil_r.
  - rewrite run_cons, world_after_pair, appended_step, app_assoc.
    now apply IH, accounted_step.
Qed.

(** X6. No sample is lost and none is exported twice.  In
    every state of a page the downloads and the bundle being packaged are
    the bundles of successive buffers, and these buffers followed by the
    present one are the samples of all the frames so far, in order. *)
Theorem samples_accounted (innerWidth innerHeight : N) (events : list event) :
  accounted (world_after (run events (initial innerWidth innerHeight)))
            (appended false events).
Proof.
  apply (accounted_run events (initial innerWidth innerHeight) []).
  exists [], []. now repeat split.
Qed.

(** ** The calls of the frames *)

Lemma count_calls_app (p : call -> bool) (l l' : list effect) :
  count_calls p (l ++ l') = (count_calls p l + count_calls p l')%nat.
Proof. unfold count_calls. now rewrite calls_of_app, filter_app, length_app. Qed.

Lemma count_calls_console (p : call -> bool) (lines : list string) :
  (forall line, p (console_log line) = false) ->
  count_calls p (map (fun line => Call (console_log line)) lines) = 0%nat.
Proof.
  intros Hp. induction lines as [|line lines IH]; [reflexivity|].
  unfold count_calls in *. cbn [map calls_of filter]. now rewrite Hp.
Qed.

(** Only frames make the calls of the loop. *)
Lemma dispatch_counts (p : call -> bool) (e : event) (w : world) :
  of_the_frame p ->
  count_calls p (effects (dispatch e w))
  = match e with
    | animationFrame time start end_ =>
        count_calls p (effects (renderLoop time start end_ w))
    | _ => 0%nat
    end.
Proof.
  intros (Hs & Hl & Hg & Hk). destruct e as [| |iw ih|time start end_|];
    try reflexivity.
  - change (dispatch click w) with (onClick w).
    destruct (isProcessingClick w) eqn:B.
    + now rewrite (onClick_busy w B).
    + rewrite (onClick_idle w B), effects_pair.
      rewrite !count_calls_app, (count_calls_console p _ Hl).
      unfold count_calls. cbn [calls_of filter]. now rewrite Hs, Hg.
  - destruct (generating w) as [|c q] eqn:G.
    + now rewrite (dispatch_zipGenerated_idle w G).
    + rewrite (dispatch_zipGenerated w c q G), effects_pair.
      unfold count_calls. cbn [calls_of filter]. now rewrite Hk.
Qed.

Lemma run_counts (p : call -> bool) (k : nat) (events : list event) :
  of_the_frame p ->
  (forall w time start end_,
     count_calls p (effects (renderLoop time start end_ w)) = k) ->
  forall w, count_calls p (effects (run events w)) = (k * count_frames events)%nat.
Proof.
  intros Hp Hk. induction events as [|e events IH]; intros w.
  - cbn. lia.
  - rewrite run_cons, effects_pair, count_calls_app, IH, (dispatch_counts p e w Hp).
    destruct e; unfold count_frames; cbn [filter List.length]; try lia.
    rewrite Hk. lia.
Qed.

(** X7. However frames, mouse moves, resizes, clicks and
    completions interleave, each frame draws once between two readings of
    the clock, saves and restores the transform once, and requests one next
    frame; nothing else does. *)
Theorem frame_calls_per_run (events : list event) (w : world) :
  let l := effects (run events w) in
  count_calls is_draw l = count_frames events
  /\ count_calls is_now l = (2 * count_frames events)%nat
  /\ count_calls is_save l = count_frames events
  /\ count_calls is_restore l = count_frames events
  /\ count_calls is_request l = count_frames events.
Proof.
  cbn zeta.
  assert (H : forall p k,
             of_the_frame p ->
             (forall w time start end_,
                count_calls p (effects (renderLoop time start end_ w)) = k) ->
             count_calls p (effects (run events w)) = (k * count_frames events)%nat)
    by (intros p k Hp Hk; now apply run_counts).
  repeat split.
  - rewrite (H is_draw 1%nat); [lia | now repeat split |].
    intros. unfold count_calls. now rewrite renderLoop_calls.
  - rewrite (H is_now 2%nat); [lia | now repeat split |].
    intros. unfold count_calls. now rewrite renderLoop_calls.
  - rewrite (H is_save 1%nat); [lia | now repeat split |].
    intros. unfold count_calls. now rewrite renderLoop_calls.
  - rewrite (H is_restore 1%nat); [lia | now repeat split |].
    intros. unfold count_calls. now rewrite renderLoop_calls.
  - rewrite (H is_request 1%nat); [lia | now repeat split |].
    intros. unfold count_calls. now rewrite renderLoop_calls.
Qed.

(** X8. What a frame times is the draw alone: between the two
    readings of the clock the only call is one draw, the save comes before
    the first reading and the restore after the second, and the request of
    the next frame is the last call. *)
Theorem renderLoop_times_the_draw (w : world) (time start end_ : number) :
  let calls := calls_of (effects (renderLoop time start end_ w)) in
  timed_region calls = [artboard_draw]
  /\ precedes is_save is_now calls = true
  /\ precedes is_now is_restore calls = true
  /\ precedes is_advance is_now calls = true
  /\ last calls renderer_clear = requestAnimationFrame_renderLoop.
Proof. cbn zeta. rewrite renderLoop_calls. repeat split. Qed.

(** X9. The time a frame advances the simulation by depends on
    the frame before and on nothing earlier: [(time2 - time1) / 1000] after
    a frame at a truthy [time1]; after a frame at time zero, which leaves
    [lastTime] falsy, a frame at a finite time advances by zero. *)
Theorem consecutive_frames (w : world) (time1 start1 end1 time2 start2 end2 : number) :
  let first := world_after (renderLoop time1 start1 end1 w) in
  let calls := calls_of (effects (renderLoop time2 start2 end2 first)) in
  (ToBoolean time1 = true ->
   elapsed_arguments calls
   = [((time2 - time1) / 1000)%float; ((time2 - time1) / 1000)%float])
  /\ (ToBoolean time1 = false -> is_finite time2 = true ->
      elapsed_arguments calls = [0%float; 0%float]).
Proof.
  cbn zeta. rewrite renderLoop_calls, renderLoop_run, world_after_pair.
  cbn [elapsed_arguments]. unfold elapsedTimeSec.
  cbn [lastTime with_mouseMovedThisFrame with_performanceData with_lastTime].
  split.
  - intros ->. reflexivity.
  - intros -> H. now rewrite (sub_diag_finite time2 H).
Qed.

Lemma consecutive_frames_witness :
  elapsed_arguments
    (calls_of (effects (renderLoop 1016 7 8
                          (world_after (renderLoop 1000 5 6 (initial 800 600))))))
  = [((1016 - 1000) / 1000)%float; ((1016 - 1000) / 1000)%float]
  /\ elapsed_arguments
       (calls_of (effects (renderLoop 16 7 8
                             (world_after (renderLoop 0 5 6 (initial 800 600))))))
     = [0%float; 0%float].
Proof.
  split.
  - exact (proj1 (consecutive_frames (initial 800 600) 1000 5 6 1016 7 8) eq_refl).
  - exact (proj2 (consecutive_frames (initial 800 600) 0 5 6 16 7 8) eq_refl eq_refl).
Defined.

(** X10. Exporting does not disturb the measurement.  A click,
    whether it exports or is ignored, and the completion of a packaging
    leave [lastTime], the flag and the canvas as they are, so the next frame
    makes the same calls and appends the same sample as it would have. *)
Theorem export_leaves_frames_alone (e : event) (w : world) (time start end_ : number) :
  of_the_export e = true ->
  let w' := world_after (dispatch e w) in
  lastTime w' = lastTime w
  /\ mouseMovedThisFrame w' = mouseMovedThisFrame w
  /\ (canvas_width w' = canvas_width w /\ canvas_height w' = canvas_height w)
  /\ calls_of (effects (renderLoop time start end_ w'))
     = calls_of (effects (renderLoop time start end_ w))
  /\ last (performanceData (world_after (renderLoop time start end_ w')))
          (mkSample 0 false)
     = last (performanceData (world_after (renderLoop time start end_ w)))
            (mkSample 0 false).
Proof.
  intros He. cbn zeta.
  assert (H : lastTime (world_after (dispatch e w)) = lastTime w
              /\ mouseMovedThisFrame (world_after (dispatch e w)) = mouseMovedThisFrame w
              /\ canvas_width (world_after (dispatch e w)) = canvas_width w
              /\ canvas_height (world_after (dispatch e w)) = canvas_height w).
  { destruct e as [| |iw ih|t s x|]; try discriminate He.
    - change (dispatch click w) with (onClick w).
      destruct (isProcessingClick w) eqn:B.
      + now rewrite (onClick_busy w B).
      + now rewrite (onClick_idle w B).
    - destruct (generating w) as [|c q] eqn:G.
      + now rewrite (dispatch_zipGenerated_idle w G).
      + now rewrite (dispatch_zipGenerated w c q G). }
  destruct H as (L & F & CW & CH).
  rewrite !renderLoop_calls, !renderLoop_run, !world_after_pair.
  unfold elapsedTimeSec.
  cbn [performanceData with_mouseMovedThisFrame with_performanceData with_lastTime].
  rewrite !last_last, L, F, CW, CH. repeat split.
Qed.

Lemma export_leaves_frames_alone_witness :
  let w := with_performanceData [mkSample 3 true] (initial 800 600) in
  calls_of (effects (renderLoop 1000 5 6 (world_after (dispatch click w))))
  = calls_of (effects (renderLoop 1000 5 6 w)).
Proof.
  cbn zeta.
  exact (proj1 (proj2 (proj2 (proj2
    (export_leaves_frames_alone click
       (with_performanceData [mkSample 3 true] (initial 800 600)) 1000 5 6
       eq_refl))))).
Defined.

(** ** More on the statistics *)

Section MoreBinary64.
Local Open Scope float_scope.

(** Rounding a positive value gives no negative number. *)
Lemma binary_round_aux_sign (mz ez : Z) (lz : location) :
  match binary_round_aux prec emax false mz ez lz with
  | S754_zero s | S754_infinity s | S754_finite s _ _ => s = false
  | S754_nan => True
  end.
Proof.
  unfold binary_round_aux.
  destruct (shr_fexp prec emax mz ez lz) as [mrs' e'].
  destruct (shr_fexp prec emax _ e' loc_Exact) as [mrs'' e''].
  destruct (shr_m mrs'') as [|m|m]; [reflexivity | | exact I].
  destruct (e'' <=? emax - prec)%Z; reflexivity.
Qed.

(** A square root is NaN or is not below zero. *)
Lemma sqrt_not_negative (x : number) : sqrt x = nan \/ (0 <=? sqrt x) = true.
Proof.
  assert (H : Prim2SF (sqrt x) = S754_nan
              \/ SFleb (Prim2SF 0) (Prim2SF (sqrt x)) = true).
  { rewrite sqrt_spec. unfold SF64sqrt, SFsqrt.
    destruct (Prim2SF x) as [s|[]| |[] m e]; try (now left); try (now right).
    destruct (SFsqrt_core_binary prec emax (Z.pos m) e) as [[mz ez] lz].
    pose proof (binary_round_aux_sign mz ez lz) as Hs.
    destruct (binary_round_aux prec emax false mz ez lz) as [s|s| |s m' e'];
      try subst s; try (now left); now right. }
  destruct H as [H|H].
  - left. apply Prim2SF_inj. now rewrite H.
  - right. now rewrite leb_spec.
Qed.

Lemma add_zero_l (x : number) : x <> neg_zero -> 0 + x = x.
Proof.
  intros Hx. apply Prim2SF_inj. rewrite add_spec.
  change (Prim2SF 0) with (S754_zero false).
  destruct (Prim2SF x) as [[]| | |] eqn:E; try reflexivity.
  exfalso. apply Hx. rewrite <- (SF2Prim_Prim2SF x), E. reflexivity.
Qed.

(** Dividing by one changes no finite number. *)
Lemma div_one (x : number) : is_finite x = true -> x / 1 = x.
Proof.
  intros H. apply Prim2SF_inj. rewrite div_spec.
  pose proof (Prim2SF_valid x) as Hv.
  change (Prim2SF 1) with (S754_finite false 4503599627370496 (-52)).
  destruct (is_finite_cases x H) as [[s E] | (s & m & e & E)]; rewrite E in *.
  - destruct s; reflexivity.
  - cbn [valid_binary] in Hv. unfold SF64div, SFdiv.
    assert (Hcore : exists j, (0 <= j)%Z
              /\ SFdiv_core_binary prec emax (Z.pos m) e
                   (Z.pos 4503599627370496) (-52)
                 = ((Z.pos m * 2 ^ j)%Z, (e - j)%Z, loc_Exact)).
    { pose proof Hv as Hb. unfold bounded in Hb. apply andb_true_iff in Hb.
      destruct Hb as [Hc _]. unfold canonical_mantissa in Hc. apply Z.eqb_eq in Hc.
      unfold SFdiv_core_binary.
      change (Zdigits2 (Z.pos 4503599627370496)) with 53%Z. cbn [Zdigits2].
      set (e' := Z.min _ _).
      assert (He' : (e' <= e)%Z).
      { unfold e'. revert Hc. unfold fexp. lia. }
      replace (e - -52 - e')%Z with (52 + (e - e'))%Z by lia.
      destruct (52 + (e - e'))%Z as [|sft|sft] eqn:Es; try lia.
      rewrite Z.shiftl_mul_pow2 by lia.
      exists (e - e')%Z. split; [lia|].
      replace (Z.pos sft) with ((e - e') + 52)%Z by lia.
      rewrite Z.pow_add_r by lia.
      change (2 ^ 52)%Z with (Z.pos 4503599627370496).
      rewrite Z.mul_assoc.
      pose proof (Z.div_mul (Z.pos m * 2 ^ (e - e')) (Z.pos 4503599627370496)) as Hq.
      pose proof (Z.mod_mul (Z.pos m * 2 ^ (e - e')) (Z.pos 4503599627370496)) as Hr.
      unfold Z.div, Z.modulo in Hq, Hr.
      destruct (Z.div_eucl _ _) as [q r].
      rewrite Hq, Hr by lia. rewrite new_location_exact.
      f_equal. f_equal. lia. }
    destruct Hcore as (j & Hj & Hcore). rewrite Hcore.
    rewrite xorb_false_r.
    destruct s.
    + pose proof (binary_round_aux_exact m e j Hj Hv) as Hr.
      unfold binary_round_aux in *.
      destruct (shr_fexp prec emax (Z.pos m * 2 ^ j) (e - j) loc_Exact) as [mrs' e1].
      destruct (shr_fexp prec emax _ e1 loc_Exact) as [mrs'' e2].
      destruct (shr_m mrs'') as [|m'|m']; try discriminate Hr.
      destruct (e2 <=? emax - prec)%Z; [|discriminate Hr].
      now injection Hr as -> ->.
    + now apply binary_round_aux_exact.
Qed.

End MoreBinary64.

Lemma group_of_one (x : number) :
  is_finite x = true -> x <> neg_zero ->
  meanOf [x] = x /\ stdDevOf [x] x = 0%float.
Proof.
  intros Hf Hz. unfold meanOf, stdDevOf, reduce, length_number, Math_sqrt, Math_pow_2.
  cbn [fold_left List.length].
  change (of_Z (Z.of_nat 1)) with 1%float.
  rewrite (add_zero_l x Hz), (div_one x Hf), (sub_diag_finite x Hf).
  split; reflexivity.
Qed.

(** X11. The deviation of a group is never negative: it is NaN or at
    least zero, whatever the durations. *)
Theorem stdDev_never_negative (data : list sample) :
  let stats := calculateStatistics data in
  (stdDev (mouseMovedStats stats) = nan
   \/ (0 <=? stdDev (mouseMovedStats stats))%float = true)
  /\ (stdDev (mouseNotMovedStats stats) = nan
      \/ (0 <=? stdDev (mouseNotMovedStats stats))%float = true).
Proof.
  cbn zeta. cbn [calculateStatistics mouseMovedStats mouseNotMovedStats stdDev].
  unfold stdDevOf, Math_sqrt. split; apply sqrt_not_negative.
Qed.

(** X12. A group holding one sample, of a finite duration other than the
    negative zero, has that duration as mean and zero as deviation,
    whatever the other group holds. *)
Theorem calculateStatistics_group_of_one (data : list sample) (x : number) :
  is_finite x = true -> x <> neg_zero ->
  let stats := calculateStatistics data in
  (mouseMovedTimes data = [x] ->
   mouseMovedStats stats = {| count := 1; mean := x; stdDev := 0 |})
  /\ (mouseNotMovedTimes data = [x] ->
      mouseNotMovedStats stats = {| count := 1; mean := x; stdDev := 0 |}).
Proof.
  intros Hf Hz. cbn zeta.
  destruct (group_of_one x Hf Hz) as [Hm Hs].
  cbn [calculateStatistics mouseMovedStats mouseNotMovedStats].
  split; intros ->; cbn [List.length]; now rewrite Hm, Hs.
Qed.

Lemma calculateStatistics_group_of_one_witness :
  mouseNotMovedStats
    (calculateStatistics [mkSample 3 true; mkSample 12.5 false; mkSample 4 true])
  = {| count := 1; mean := 12.5; stdDev := 0 |}.
Proof.
  apply (calculateStatistics_group_of_one
           [mkSample 3 true; mkSample 12.5 false; mkSample 4 true] 12.5 eq_refl).
  - apply Object_is_neg_zero. reflexivity.
  - reflexivity.
Defined.

(** ** More on the texts *)

Section MoreSummary.
Local Open Scope string_scope.

Lemma no_moved_all_static (data : list sample) :
  mouseMovedTimes data = [] -> mouseNotMovedTimes data = map ms data.
Proof.
  unfold mouseMovedTimes, mouseNotMovedTimes.
  induction data as [|d data IH]; [reflexivity|].
  cbn [filter]. destruct (mouseMoved d); cbn [negb map]; [discriminate|].
  intros H. now rewrite (IH H).
Qed.

(** X16. When no frame of the buffer saw the mouse move, the export does
    not fail: the summary reads [NaN] for the impact and for the mean and
    the deviation of the moved frames, beside the count 0, and gives the
    statistics of all the samples as those of the static frames. *)
Theorem statsText_no_moved_frame (data : list sample) :
  mouseMovedTimes data = [] ->
  statsText (calculateStatistics data)
  = "Performance Statistics Summary" ++ LF
    ++ "--------------------------------" ++ LF
    ++ "Performance impact of mouse movement: NaNms" ++ LF
    ++ LF ++ "Mouse Moved Frames:" ++ LF
    ++ "Count: 0" ++ LF
    ++ "Mean: NaNms" ++ LF
    ++ "Standard Deviation: " ++ plus_minus ++ "NaN" ++ LF
    ++ LF ++ "Static Frames:" ++ LF
    ++ "Count: " ++ count_toString (List.length data) ++ LF
    ++ "Mean: " ++ Number_toFixed (meanOf (map ms data)) 2 ++ "ms" ++ LF
    ++ "Standard Deviation: " ++ plus_minus
    ++ Number_toFixed (stdDevOf (map ms data) (meanOf (map ms data))) 2.
Proof.
  intros H. unfold statsText.
  cbn [calculateStatistics mouseMovedStats mouseNotMovedStats count mean stdDev
       difference].
  rewrite (no_moved_all_static data H), H, length_map, meanOf_nil, stdDevOf_nil,
    sub_nan_l.
  reflexivity.
Qed.

Lemma statsText_no_moved_frame_witness :
  statsText (calculateStatistics [mkSample 10 false; mkSample 30 false])
  = "Performance Statistics Summary" ++ LF
    ++ "--------------------------------" ++ LF
    ++ "Performance impact of mouse movement: NaNms" ++ LF
    ++ LF ++ "Mouse Moved Frames:" ++ LF
    ++ "Count: 0" ++ LF
    ++ "Mean: NaNms" ++ LF
    ++ "Standard Deviation: " ++ plus_minus ++ "NaN" ++ LF
    ++ LF ++ "Static Frames:" ++ LF
    ++ "Count: " ++ count_toString 2 ++ LF
    ++ "Mean: " ++ Number_toFixed (meanOf [10; 30]%float) 2 ++ "ms" ++ LF
    ++ "Standard Deviation: " ++ plus_minus
    ++ Number_toFixed (stdDevOf [10; 30]%float (meanOf [10; 30]%float)) 2.
Proof.
  exact (statsText_no_moved_frame [mkSample 10 false; mkSample 30 false] eq_refl).
Defined.

End MoreSummary.

Section MoreTable.
Local Open Scope string_scope.






(** X14. Two different samples never have the same row, the two zeros
    apart: the row tells the duration and the flag. *)
Theorem csvRow_distinct (a b : sample) :
  ms a <> neg_zero -> ms b <> neg_zero ->
  a <> b -> csvRow a <> csvRow b.
Proof.
  intros Ha Hb Hab E. apply Hab.
  pose proof (parseRow_csvRow a (readNumber_toString _ Ha)) as Pa.
  pose proof (parseRow_csvRow b (readNumber_toString _ Hb)) as Pb.
  rewrite E, Pb in Pa.
  exact (f_equal (fun read => match read with Some row => row | None => a end)
                 (eq_sym Pa)).
Qed.

Lemma csvRow_distinct_witness :
  csvRow (mkSample 1.5 true) <> csvRow (mkSample 2.5 true).
Proof.
  apply csvRow_distinct; try (apply Object_is_neg_zero; reflexivity).
  intros H. apply (f_equal (fun d => Prim2SF (ms d))) in H.
  vm_compute in H. discriminate H.
Defined.

(** *** The data URI of the earlier copy *)

Import Earlier.

Lemma encodeURI_app (a b : string) :
  encodeURI (a ++ b) = encodeURI a ++ encodeURI b.
Proof.
  induction a as [|c a IH]; cbn [append encodeURI]; [reflexivity|].
  now rewrite IH, append_assoc.
Qed.

Lemma encodeURI_unescaped (s : string) :
  all_chars unescaped s = true -> encodeURI s = s.
Proof.
  induction s as [|c s IH]; cbn [all_chars encodeURI]; [reflexivity|].
  intros H. apply andb_true_iff in H. destruct H as [Hc Hs].
  now rewrite Hc, (IH Hs).
Qed.

Lemma is_digit_unescaped (c : ascii) : is_digit c = true -> unescaped c = true.
Proof. intros H. unfold unescaped. rewrite H. now rewrite orb_true_r. Qed.

Lemma unescaped_notation (s n : Z) : all_chars unescaped (notation s n) = true.
Proof.
  unfold notation.
  pose proof (all_chars_weaken _ _ _ is_digit_unescaped (all_chars_decimal s)) as Hd.
  pose proof (all_chars_weaken _ _ _ is_digit_unescaped
                (all_chars_zeros (Z.to_nat (n - ndigits s)))) as Hz.
  pose proof (all_chars_weaken _ _ _ is_digit_unescaped
                (all_chars_zeros (Z.to_nat (- n)))) as Hz'.
  pose proof (all_chars_weaken _ _ _ is_digit_unescaped
                (all_chars_decimal (Z.abs (n - 1)))) as He.
  repeat match goal with
         | |- context [if ?c then _ else _] => destruct c
         end;
    repeat (rewrite all_chars_app || cbn [all_chars append]);
    rewrite ?Hd, ?Hz, ?Hz', ?He, ?(all_chars_take unescaped _ _ Hd),
      ?(all_chars_drop unescaped _ _ Hd);
    reflexivity.
Qed.

Lemma unescaped_csvRow (row : sample) : all_chars unescaped (csvRow row) = true.
Proof.
  unfold csvRow, Number_toString. rewrite !all_chars_app.
  assert (H : all_chars unescaped
                match Prim2SF (ms row) with
                | S754_zero _ => "0"
                | S754_infinity sg => if sg then "-Infinity" else "Infinity"
                | S754_nan => "NaN"
                | S754_finite sg m e =>
                    let '(s, n) := shortest m e in
                    (if sg then "-" else "") ++ notation s n
                end = true).
  { destruct (Prim2SF (ms row)) as [sg|[]| |[] m e]; try reflexivity;
      destruct (shortest m e) as [s n]; cbn [append all_chars];
      now rewrite unescaped_notation. }
  rewrite H. destruct (mouseMoved row); reflexivity.
Qed.

Lemma encodeURI_rows (rows : list sample) :
  encodeURI (String.concat LF (map csvRow rows))
  = String.concat "%0A" (map csvRow rows).
Proof.
  induction rows as [|row rows IH]; [reflexivity|].
  destruct rows as [|row' rows].
  - cbn [map String.concat]. apply encodeURI_unescaped, unescaped_csvRow.
  - change (String.concat LF (map csvRow (row :: row' :: rows)))
      with (csvRow row ++ LF ++ String.concat LF (map csvRow (row' :: rows))).
    change (String.concat "%0A" (map csvRow (row :: row' :: rows)))
      with (csvRow row ++ "%0A" ++ String.concat "%0A" (map csvRow (row' :: rows))).
    rewrite !encodeURI_app, IH, (encodeURI_unescaped _ (unescaped_csvRow row)).
    reflexivity.
Qed.

(** X15. In the link of the earlier copy, [encodeURI] escapes the line
    feeds of the table and nothing else: the address is the prefix, the
    header and the rows as in the table, with [%0A] for each line feed. *)
Theorem downloadCSV_href (data : list sample) :
  href (downloadCSV data)
  = "data:text/csv;charset=utf-8,DrawTime(ms),MouseMoved%0A"
    ++ String.concat "%0A" (map csvRow data)
  /\ download (downloadCSV data) = "performance_data.csv".
Proof.
  split; [|reflexivity]. unfold downloadCSV. cbn [href].
  rewrite !encodeURI_app, encodeURI_rows. reflexivity.
Qed.

End MoreTable.
